(** * migration-stats: the statistics parser, the aligner and the ranked charts

    A shallow embedding of [plot_migration_stats.py].

    Conventions of the embedding.
    - Text is a [string] of code points below 256; the whitespace and digit
      classes are the ones Python's [str.strip], [int] and the [re] module use
      on that range.
    - A Python [dict] is an association list in insertion order whose keys are
      pairwise distinct ([dict_wf]); insertion order is what [sorted] falls
      back on for equal keys, so it is kept.
    - Python integers are [Z].  The numbers produced by true division are
      modelled by exact rationals [Q]: rounding of binary floating point is
      not part of the model.
    - A raised exception is the [None] of an [option], or the [Raises] of an
      [outcome] for the chart routines, which can also return early. *)

From Stdlib Require Import List String Ascii Bool Arith ZArith QArith Lia.
From Stdlib Require Import Permutation Sorted Qminmax Lqa.
Import ListNotations.

Local Close Scope Q_scope.
Local Open Scope string_scope.
Local Open Scope list_scope.

(* ================================================================= *)
(** ** Python primitives on text *)

(** [str.isspace] on code points below 256: TAB..CR, FS..US, SPACE, NEL, NBSP.
    The same class is [\s] of a [str] pattern. *)
Definition is_space (c : ascii) : bool :=
  let n := nat_of_ascii c in
  (((9 <=? n) && (n <=? 13)) || ((28 <=? n) && (n <=? 32))
   || (n =? 133) || (n =? 160))%nat.

(** [\d] of a [str] pattern, and the digits [int] accepts, below 256. *)
Definition is_digit (c : ascii) : bool :=
  let n := nat_of_ascii c in ((48 <=? n) && (n <=? 57))%nat.

Definition is_empty (s : string) : bool :=
  match s with EmptyString => true | String _ _ => false end.

Fixpoint lstrip (s : string) : string :=
  match s with
  | EmptyString => EmptyString
  | String c r => if is_space c then lstrip r else s
  end.

Fixpoint rstrip (s : string) : string :=
  match s with
  | EmptyString => EmptyString
  | String c r =>
      match rstrip r with
      | EmptyString => if is_space c then EmptyString else String c EmptyString
      | r' => String c r'
      end
  end.

(** [s.strip()] *)
Definition strip (s : string) : string := rstrip (lstrip s).

(** [s.startswith(p)] *)
Definition startswith (s p : string) : bool := String.prefix p s.

(** [re.split(r'\s+', s)]: the pieces between maximal runs of whitespace;
    [in_ws] records that the previous character was whitespace. *)
Fixpoint split_ws (in_ws : bool) (s : string) : list string :=
  match s with
  | EmptyString => [EmptyString]
  | String c r =>
      if is_space c then
        if in_ws then split_ws true r else EmptyString :: split_ws true r
      else
        match split_ws false r with
        | t :: ts => String c t :: ts
        | [] => [String c EmptyString]
        end
  end.

Definition re_split_ws (s : string) : list string := split_ws false s.

Definition digit_value (c : ascii) : Z := (Z.of_nat (nat_of_ascii c) - 48)%Z.

(** The body of an integer literal: decimal digits, single underscores
    allowed between two digits. *)
Fixpoint int_body (prev_digit : bool) (acc : Z) (s : string) : option Z :=
  match s with
  | EmptyString => if prev_digit then Some acc else None
  | String c r =>
      if is_digit c then int_body true (10 * acc + digit_value c)%Z r
      else if Ascii.eqb c "_" then
             if prev_digit then int_body false acc r else None
           else None
  end.

(** [int(s)] in base ten; [None] is [ValueError].  (The interpreter's limit
    on the length of the literal is not modelled.) *)
Definition py_int (s : string) : option Z :=
  match strip s with
  | String c r =>
      if Ascii.eqb c "-" then option_map Z.opp (int_body false 0%Z r)
      else if Ascii.eqb c "+" then int_body false 0%Z r
      else int_body false 0%Z (String c r)
  | EmptyString => None
  end.

(** *** The summary-line pattern

    [re.match(r'buffer_migrate_folio_norefs:\s+(\d+)% success\s+\((\d+)/(\d+)\)', line)].
    Each [\s+] is followed by a non-space and each [\d+] by a non-digit, so
    the greedy reading below is the only way the pattern can match. *)

Fixpoint match_lit (lit s : string) : option string :=
  match lit with
  | EmptyString => Some s
  | String a lit' =>
      match s with
      | String b s' => if Ascii.eqb a b then match_lit lit' s' else None
      | EmptyString => None
      end
  end.

(** [\s+] *)
Definition match_spaces (s : string) : option string :=
  match s with
  | String c r => if is_space c then Some (lstrip r) else None
  | EmptyString => None
  end.

Fixpoint take_digits (s : string) : string * string :=
  match s with
  | EmptyString => (EmptyString, EmptyString)
  | String c r =>
      if is_digit c then let (d, rest) := take_digits r in (String c d, rest)
      else (EmptyString, s)
  end.

(** [(\d+)] *)
Definition match_digits (s : string) : option (string * string) :=
  match take_digits s with
  | (EmptyString, _) => None
  | (d, rest) => Some (d, rest)
  end.

Definition obind {A B} (o : option A) (f : A -> option B) : option B :=
  match o with Some a => f a | None => None end.

Notation "x <- o ;; k" := (obind o (fun x => k))
  (at level 61, o at next level, right associativity).
Notation "' p <- o ;; k" := (obind o (fun p => k))
  (at level 61, p pattern, o at next level, right associativity).

(** A comprehension or loop whose body can raise: the first failure ends it. *)
Fixpoint traverse {A B} (f : A -> option B) (l : list A) : option (list B) :=
  match l with
  | [] => Some []
  | x :: r => y <- f x ;; ys <- traverse f r ;; Some (y :: ys)
  end.

(** [a / b] on integers; [None] is [ZeroDivisionError]. *)
Definition py_truediv (a b : Z) : option Q :=
  if Z.eqb b 0 then None else Some (inject_Z a / inject_Z b)%Q.

(** The groups 1, 2 and 3 of the match, when there is one. *)
Definition re_match_norefs (line : string) : option (string * string * string) :=
  s1 <- match_lit "buffer_migrate_folio_norefs:" line ;;
  s2 <- match_spaces s1 ;;
  '(g1, s3) <- match_digits s2 ;;
  s4 <- match_lit "% success" s3 ;;
  s5 <- match_spaces s4 ;;
  s6 <- match_lit "(" s5 ;;
  '(g2, s7) <- match_digits s6 ;;
  s8 <- match_lit "/" s7 ;;
  '(g3, s9) <- match_digits s8 ;;
  _ <- match_lit ")" s9 ;;
  Some (g1, g2, g3).

(* ================================================================= *)
(** ** Dictionaries *)

Definition dict (V : Type) : Type := list (string * V).

Definition keys {V} (d : dict V) : list string := map fst d.
Definition values {V} (d : dict V) : list V := map snd d.

Definition dict_wf {V} (d : dict V) : Prop := NoDup (keys d).

(** [d.get(k, default)] *)
Fixpoint dict_get {V} (d : dict V) (k : string) (default : V) : V :=
  match d with
  | [] => default
  | (k', v) :: d' => if String.eqb k' k then v else dict_get d' k default
  end.

Fixpoint dict_mem {V} (d : dict V) (k : string) : bool :=
  match d with
  | [] => false
  | (k', _) :: d' => String.eqb k' k || dict_mem d' k
  end.

(** [d.setdefault(k, []).append(v)] *)
Fixpoint setdefault_append (k : string) (v : Z) (d : dict (list Z)) : dict (list Z) :=
  match d with
  | [] => [(k, [v])]
  | (k', l) :: d' =>
      if String.eqb k' k then (k', l ++ [v]) :: d'
      else (k', l) :: setdefault_append k v d'
  end.

(* ================================================================= *)
(** ** parse_stats_file *)

(** The lines a text file yields under universal newlines: CR LF and a lone
    CR end a line as LF does.  (A last empty piece is kept; the parser skips
    empty lines.) *)
Fixpoint file_lines (s : string) : list string :=
  match s with
  | EmptyString => [EmptyString]
  | String c r =>
      if Ascii.eqb c "010" then EmptyString :: file_lines r
      else if Ascii.eqb c "013" then
        match r with
        | String c2 r2 =>
            if Ascii.eqb c2 "010" then EmptyString :: file_lines r2
            else EmptyString :: file_lines r
        | EmptyString => EmptyString :: file_lines r
        end
      else
        match file_lines r with
        | l :: ls => String c l :: ls
        | [] => [String c EmptyString]
        end
  end.

Definition stats_t : Type := dict (list Z).

(** The body of the loop of [parse_stats_file] for one line. *)
Definition parse_line (stats : stats_t) (raw : string) : option stats_t :=
  let line := strip raw in
  if is_empty line || startswith line "[" then Some stats
  else
    match re_match_norefs line with
    | Some (_, g2, g3) =>
        success <- py_int g2 ;;
        total <- py_int g3 ;;
        Some (setdefault_append "norefs_total_summary" total
                (setdefault_append "norefs_success_summary" success stats))
    | None =>
        if startswith line "Success ratios:" then Some stats
        else
          match re_split_ws line with
          | [key; value] =>
              v <- py_int value ;;
              Some (setdefault_append (strip key) v stats)
          | _ => Some stats
          end
    end.

Fixpoint parse_lines (stats : stats_t) (lines : list string) : option stats_t :=
  match lines with
  | [] => Some stats
  | l :: ls => stats' <- parse_line stats l ;; parse_lines stats' ls
  end.

Definition parse_stats_file (text : string) : option stats_t :=
  parse_lines [] (file_lines text).

(* ================================================================= *)
(** ** Python's [min], [max] and [sorted] *)

Section PyOrder.
Context {V : Type} (ltb : V -> V -> bool).

(** [min(a, b)]: the first argument unless the second is smaller. *)
Definition py_min2 (a b : V) : V := if ltb b a then b else a.

(** [max(a, b)]: the first argument unless the second is larger. *)
Definition py_max2 (a b : V) : V := if ltb a b then b else a.

(** [min(l)] and [max(l)]; [None] is the [ValueError] of an empty
    argument. *)
Definition py_min (l : list V) : option V :=
  match l with
  | [] => None
  | x :: r => Some (fold_left py_min2 r x)
  end.

Definition py_max (l : list V) : option V :=
  match l with
  | [] => None
  | x :: r => Some (fold_left py_max2 r x)
  end.

(** [sorted(items, key=lambda x: x[1])].  The sort is stable and compares
    keys with [<] only: an item goes in front of the first item of the
    already sorted tail whose key is not smaller than its own. *)
Fixpoint insert_item (x : string * V) (l : list (string * V)) : list (string * V) :=
  match l with
  | [] => [x]
  | y :: r => if ltb (snd y) (snd x) then y :: insert_item x r else x :: y :: r
  end.

Fixpoint sorted_by_value (items : list (string * V)) : list (string * V) :=
  match items with
  | [] => []
  | x :: r => insert_item x (sorted_by_value r)
  end.
End PyOrder.

(** [l[-1]]; [None] is [IndexError]. *)
Definition py_last {A} (l : list A) : option A :=
  match l with
  | [] => None
  | x :: r => Some (last r x)
  end.

(** [l[1:-1]] *)
Definition slice_1_m1 {A} (l : list A) : list A := removelast (tl l).

(** [x in l] *)
Definition name_in (x : string) (l : list string) : bool :=
  existsb (String.eqb x) l.

(** [l.index(x)]; [None] is [ValueError]. *)
Fixpoint py_index (l : list string) (x : string) : option nat :=
  match l with
  | [] => None
  | y :: r => if String.eqb y x then Some 0%nat
              else option_map S (py_index r x)
  end.

Definition Qltb (a b : Q) : bool :=
  match Qcompare a b with Lt => true | _ => false end.

(* ================================================================= *)
(** ** truncate_all *)

(** [len(v) for stats in stats_dicts.values() for v in stats.values()] *)
Definition series_lengths (stats_dicts : dict stats_t) : list nat :=
  flat_map (fun stats => map (@List.length Z) (values stats)) (values stats_dicts).

Definition truncate_stats (min_len : nat) (stats : stats_t) : stats_t :=
  map (fun '(k, v) => (k, firstn min_len v)) stats.

Definition truncate_all (stats_dicts : dict stats_t) : option (dict stats_t * nat) :=
  min_len <- py_min Nat.ltb (series_lengths stats_dicts) ;;
  Some (map (fun '(name, stats) => (name, truncate_stats min_len stats)) stats_dicts,
        min_len).

(* ================================================================= *)
(** ** What a chart routine hands to the drawing backend *)

Inductive exn : Type := IndexError | ValueError | ZeroDivisionError.

(** A routine saves a figure, returns before drawing anything, or raises. *)
Inductive outcome (A : Type) : Type :=
| Saved (a : A)
| NoOp
| Raises (e : exn).
Arguments Saved {A} a.
Arguments NoOp {A}.
Arguments Raises {A} e.

(** ["green"], ["red"], or [cmap(norm(idx))] for the colour map [cmap_name]
    and [Normalize(vmin=0, vmax=vmax)]. *)
Inductive colour : Type :=
| green
| red
| cmap (cmap_name : string) (idx vmax : nat).

Record line (V : Type) : Type := mk_line {
  ln_name : string;
  ln_series : list V;
  ln_colour : colour;
  ln_zorder : nat;
  ln_width : Q;
  ln_marker : option ascii
}.
Arguments mk_line {V}.
Arguments ln_name {V}.
Arguments ln_series {V}.
Arguments ln_colour {V}.
Arguments ln_zorder {V}.
Arguments ln_width {V}.
Arguments ln_marker {V}.

Record chart (V : Type) : Type := mk_chart {
  ch_time : list Q;
  ch_lines : list (line V);
  ch_ylim : option (Q * Q)
}.
Arguments mk_chart {V}.
Arguments ch_time {V}.
Arguments ch_lines {V}.
Arguments ch_ylim {V}.

(** [[(i * 60) / 3600.0 for i in range(min_len)]] *)
Definition time_axis (min_len : nat) : list Q :=
  map (fun i => (inject_Z (Z.of_nat i * 60) / 3600)%Q) (seq 0 min_len).

(* ================================================================= *)
(** ** The ranking shared by the three valid-only charts *)

Section Ranking.
Context {V : Type} (zero : V).

(** [series[-1] if series else 0] *)
Definition guarded_final (series : list V) : V :=
  match series with
  | [] => zero
  | _ :: _ => last series zero
  end.

(** [{dut: series[-1] if series else 0 for dut, series in by_dut.items()}] *)
Definition guarded_finals (by_dut : dict (list V)) : dict V :=
  map (fun '(dut, series) => (dut, guarded_final series)) by_dut.

(** [[dut for dut, _ in sorted_duts[1:-1]] if len(sorted_duts) > 2 else []] *)
Definition guarded_middle (sorted_duts : list (string * V)) : list string :=
  if (2 <? List.length sorted_duts)%nat then map fst (slice_1_m1 sorted_duts) else [].

(** [middle.index(dut) if middle and dut in middle else 0]; the index
    exists where it is asked for. *)
Definition guarded_index (middle : list string) (dut : string) : nat :=
  if negb (Nat.eqb (List.length middle) 0) && name_in dut middle then
    match py_index middle dut with Some i => i | None => 0%nat end
  else 0%nat.
End Ranking.

(** The three local variables a chart routine ranks its data sets with. *)
Record ranking : Type := mk_ranking {
  rk_worst : string;
  rk_best : string;
  rk_middle : list string
}.

Section RankedLines.
Context {V : Type}.

(** The drawing loop of the three valid-only charts:
    [for dut_name, series in by_dut.items(): ...].  The best data set is
    tested first, so a data set that is both best and worst is drawn as
    the best one. *)
Definition ranked_lines (best_dut worst_dut : string) (middle_duts : list string)
    (best_marker worst_marker : option ascii) (by_dut : dict (list V))
    : list (line V) :=
  let norm_vmax := Nat.max 1 (List.length middle_duts) in
  map (fun '(dut_name, series) =>
         if String.eqb dut_name best_dut then
           mk_line dut_name series green (List.length by_dut + 1) (5 # 2) best_marker
         else if String.eqb dut_name worst_dut then
           mk_line dut_name series red (List.length by_dut) (5 # 2) worst_marker
         else
           let idx := guarded_index middle_duts dut_name in
           mk_line dut_name series (cmap "viridis" idx norm_vmax) idx (3 # 2) None)
      by_dut.
End RankedLines.

(* ================================================================= *)
(** ** plot_valid_ratio *)

(** The axis range of the ratio chart, from the final ratios. *)
Definition zoom_ylim (final_ratios : dict Q) : Q * Q :=
  let non_zero_finals := filter (fun v => Qltb 0 v) (values final_ratios) in
  match py_min Qltb non_zero_finals, py_max Qltb non_zero_finals with
  | Some min_final, Some max_final =>
      let value_range := (max_final - min_final)%Q in
      if Qltb value_range (1 # 2) then
        (py_max2 Qltb 99 (min_final - value_range * (1 # 2)),
         py_min2 Qltb 100 (max_final + value_range * (1 # 2)))%Q
      else
        (py_max2 Qltb 95 (min_final - 1), 201 # 2)%Q
  | _, _ => (95, 201 # 2)%Q
  end.

(** The ranking block; [None] is the early [return] on no data. *)
Definition ratio_ranking (pct_by_dut : dict (list Q)) : option ranking :=
  let final_ratios := guarded_finals 0%Q pct_by_dut in
  let sorted_duts := sorted_by_value Qltb final_ratios in
  match sorted_duts, py_last sorted_duts with
  | first :: _, Some final =>
      Some (mk_ranking (fst first) (fst final) (guarded_middle sorted_duts))
  | _, _ => None
  end.

Definition plot_valid_ratio (pct_by_dut : dict (list Q)) (time : list Q)
    : outcome (chart Q) :=
  match ratio_ranking pct_by_dut with
  | None => NoOp
  | Some rk =>
      Saved (mk_chart time
               (ranked_lines (rk_best rk) (rk_worst rk) (rk_middle rk)
                  (Some "o"%char) (Some "s"%char) pct_by_dut)
               (Some (zoom_ylim (guarded_finals 0%Q pct_by_dut))))
  end.

(* ================================================================= *)
(** ** plot_valid_success and plot_valid_fails *)

Definition success_ranking (valid_success_by_dut : dict (list Z)) : option ranking :=
  let final_success := guarded_finals 0%Z valid_success_by_dut in
  let sorted_success := sorted_by_value Z.ltb final_success in
  match sorted_success, py_last sorted_success with
  | first :: _, Some final =>
      (* worst_success_dut, best_success_dut = sorted_success[0][0], sorted_success[-1][0] *)
      Some (mk_ranking (fst first) (fst final) (guarded_middle sorted_success))
  | _, _ => None
  end.

Definition plot_valid_success (valid_success_by_dut : dict (list Z)) (time : list Q)
    : outcome (chart Z) :=
  match success_ranking valid_success_by_dut with
  | None => NoOp
  | Some rk =>
      Saved (mk_chart time
               (ranked_lines (rk_best rk) (rk_worst rk) (rk_middle rk)
                  None None valid_success_by_dut)
               None)
  end.

Definition fails_ranking (valid_fails_by_dut : dict (list Z)) : option ranking :=
  let final_fails := guarded_finals 0%Z valid_fails_by_dut in
  let sorted_fails := sorted_by_value Z.ltb final_fails in
  match sorted_fails, py_last sorted_fails with
  | first :: _, Some final =>
      (* best_fails_dut, worst_fails_dut = sorted_fails[0][0], sorted_fails[-1][0] *)
      Some (mk_ranking (fst final) (fst first) (guarded_middle sorted_fails))
  | _, _ => None
  end.

Definition plot_valid_fails (valid_fails_by_dut : dict (list Z)) (time : list Q)
    : outcome (chart Z) :=
  match fails_ranking valid_fails_by_dut with
  | None => NoOp
  | Some rk =>
      Saved (mk_chart time
               (ranked_lines (rk_best rk) (rk_worst rk) (rk_middle rk)
                  None None valid_fails_by_dut)
               None)
  end.

(* ================================================================= *)
(** ** plot_valid *)

(** [[0] * min_len] *)
Definition zeros (min_len : nat) : list Z := repeat 0%Z min_len.

(** One step of the ratio loop: [0] where [s + f] is zero,
    [(s / total) * 100] elsewhere. *)
Definition ratio_at (pair : Z * Z) : option Q :=
  let (s, f) := pair in
  let total := (s + f)%Z in
  if Z.eqb total 0 then Some 0%Q
  else q <- py_truediv s total ;; Some (q * 100)%Q.

(** [for s, f in zip(v_success, v_fails): ...] *)
Definition valid_ratio (v_success v_fails : list Z) : option (list Q) :=
  traverse ratio_at (combine v_success v_fails).

Definition valid_success_of (stats : stats_t) (min_len : nat) : list Z :=
  dict_get stats "valid-success" (zeros min_len).

Definition valid_fails_of (stats : stats_t) (min_len : nat) : list Z :=
  dict_get stats "valid-fails" (zeros min_len).

(** The three mappings [plot_valid] fills, one entry per data set (the
    names of [stats_map] are distinct, so each assignment adds an entry). *)
Definition pct_by_dut_of (stats_map : dict stats_t) (min_len : nat)
    : option (dict (list Q)) :=
  traverse (fun '(dut_name, stats) =>
              ratio <- valid_ratio (valid_success_of stats min_len)
                                   (valid_fails_of stats min_len) ;;
              Some (dut_name, ratio))
           stats_map.

Definition valid_success_by_dut_of (stats_map : dict stats_t) (min_len : nat)
    : dict (list Z) :=
  map (fun '(dut_name, stats) => (dut_name, valid_success_of stats min_len)) stats_map.

Definition valid_fails_by_dut_of (stats_map : dict stats_t) (min_len : nat)
    : dict (list Z) :=
  map (fun '(dut_name, stats) => (dut_name, valid_fails_of stats min_len)) stats_map.

(** [None] is an exception of the preparation loop, before any chart. *)
Definition plot_valid (stats_map : dict stats_t) (min_len : nat)
    : option (outcome (chart Q) * outcome (chart Z) * outcome (chart Z)) :=
  let time := time_axis min_len in
  pct_by_dut <- pct_by_dut_of stats_map min_len ;;
  Some (plot_valid_ratio pct_by_dut time,
        plot_valid_success (valid_success_by_dut_of stats_map min_len) time,
        plot_valid_fails (valid_fails_by_dut_of stats_map min_len) time).

(* ================================================================= *)
(** ** plot_success_rate *)

Definition rate_at (pair : Z * Z) : option Q :=
  let (s, t) := pair in
  if Z.ltb 0 t then q <- py_truediv s t ;; Some (q * 100)%Q else Some 0%Q.

(** [[(s / t) * 100 if t > 0 else 0 for s, t in zip(success, total)]] *)
Definition norefs_pct (success total : list Z) : option (list Q) :=
  traverse rate_at (combine success total).

Definition norefs_pct_of (stats : stats_t) (min_len : nat) : option (list Q) :=
  let total := dict_get stats "norefs_total_summary" (zeros min_len) in
  let success := dict_get stats "norefs_success_summary" (zeros min_len) in
  norefs_pct success total.

Definition norefs_pct_by_dut (stats_map : dict stats_t) (min_len : nat)
    : option (dict (list Q)) :=
  traverse (fun '(dut_name, stats) =>
              pct <- norefs_pct_of stats min_len ;;
              Some (dut_name, pct))
           stats_map.

(** [{dut: series[-1] for dut, series in pct_by_dut.items()}]; [None] is the
    [IndexError] of an empty series. *)
Definition unguarded_finals {V} (by_dut : dict (list V)) : option (dict V) :=
  traverse (fun '(dut, series) => v <- py_last series ;; Some (dut, v)) by_dut.

(** The drawing loop of [plot_success_rate]; [None] is the [ValueError] of
    [middle_duts.index(dut)]. *)
Fixpoint success_rate_lines (best_dut worst_dut : string) (middle_duts : list string)
    (pct_by_dut : dict (list Q)) : option (list (line Q)) :=
  match pct_by_dut with
  | [] => Some []
  | (dut, pct) :: rest =>
      ln <- (if String.eqb dut best_dut then
               Some (mk_line dut pct green 3 2%Q None)
             else if String.eqb dut worst_dut then
               Some (mk_line dut pct red 2 2%Q None)
             else
               i <- py_index middle_duts dut ;;
               Some (mk_line dut pct
                       (cmap "Greys" (i + 1) (List.length middle_duts + 1))
                       1 2%Q None)) ;;
      lns <- success_rate_lines best_dut worst_dut middle_duts rest ;;
      Some (ln :: lns)
  end.

(** [max((max(pct) for pct in pct_by_dut.values() if pct), default=100)] *)
Definition max_pct_of (pct_by_dut : dict (list Q)) : Q :=
  match py_max Qltb
          (flat_map (fun pct => match py_max Qltb pct with
                                | Some m => [m]
                                | None => []
                                end)
                    (values pct_by_dut)) with
  | Some m => m
  | None => 100%Q
  end.

(** The ranking block of [plot_success_rate]: no guard on an empty series
    and none on an empty mapping. *)
Definition success_rate_ranking (pct_by_dut : dict (list Q)) : outcome ranking :=
  match unguarded_finals pct_by_dut with
  | None => Raises IndexError
  | Some final_scores =>
      let sorted_duts := sorted_by_value Qltb final_scores in
      match sorted_duts, py_last sorted_duts with
      | first :: _, Some final =>
          Saved (mk_ranking (fst first) (fst final)
                   (map fst (slice_1_m1 sorted_duts)))
      | _, _ => Raises IndexError
      end
  end.

Definition plot_success_rate (stats_map : dict stats_t) (min_len : nat)
    : outcome (chart Q) :=
  let time := time_axis min_len in
  match norefs_pct_by_dut stats_map min_len with
  | None => Raises ZeroDivisionError
  | Some pct_by_dut =>
      match success_rate_ranking pct_by_dut with
      | Saved rk =>
          match success_rate_lines (rk_best rk) (rk_worst rk) (rk_middle rk)
                  pct_by_dut with
          | None => Raises ValueError
          | Some lines =>
              let max_pct := max_pct_of pct_by_dut in
              Saved (mk_chart time lines
                       (Some (0, if Qltb 0 max_pct
                                 then max_pct * (11 # 10) else 1)%Q))
          end
      | NoOp => NoOp
      | Raises e => Raises e
      end
  end.

(* ================================================================= *)
(** ** plot_general *)

Record panel : Type := mk_panel {
  pn_title : string;
  pn_fails : list Z;
  pn_success : list Z;
  pn_invalid : list Z
}.

(** [max(l) if l else 0] *)
Definition max_or_zero (l : list Z) : Z :=
  match py_max Z.ltb l with Some m => m | None => 0%Z end.

Definition general_panel (min_len : nat) (entry : string * stats_t) : panel :=
  let (dut_name, stats) := entry in
  mk_panel dut_name
    (dict_get stats "fails" (zeros min_len))
    (dict_get stats "success" (zeros min_len))
    (dict_get stats "invalid" (zeros min_len)).

(** The first loop: the largest value over the three series of every data
    set, starting from [0]. *)
Definition general_ymax (stats_map : dict stats_t) (min_len : nat) : Z :=
  fold_left
    (fun ymax entry =>
       let p := general_panel min_len entry in
       py_max2 Z.ltb ymax
         (fold_left (py_max2 Z.ltb)
            [max_or_zero (pn_success p); max_or_zero (pn_invalid p)]
            (max_or_zero (pn_fails p))))
    stats_map 0%Z.

(** The panels, and the shared [set_ylim(0, ymax * 1.1 if ymax > 0 else 1)]. *)
Definition plot_general (stats_map : dict stats_t) (min_len : nat)
    : list panel * (Q * Q) :=
  let ymax := general_ymax stats_map min_len in
  (map (general_panel min_len) stats_map,
   (0, if Z.ltb 0 ymax then inject_Z ymax * (11 # 10) else 1)%Q).

(* ================================================================= *)
(** ** Vocabulary of the statements *)

Fixpoint all_space (s : string) : bool :=
  match s with
  | EmptyString => true
  | String c r => is_space c && all_space r
  end.

Fixpoint all_digits (s : string) : bool :=
  match s with
  | EmptyString => true
  | String c r => is_digit c && all_digits r
  end.

Fixpoint has_nonspace (s : string) : bool :=
  match s with
  | EmptyString => false
  | String c r => negb (is_space c) || has_nonspace r
  end.

(** The number a run of decimal digits denotes, most significant first. *)
Fixpoint decimal_from (acc : Z) (s : string) : Z :=
  match s with
  | EmptyString => acc
  | String c r => decimal_from (10 * acc + digit_value c)%Z r
  end.

Definition decimal_value (s : string) : Z := decimal_from 0%Z s.

(** The numbers the two derived-metric loops produce, the guards taken
    into account. *)
Definition ratio_value (pair : Z * Z) : Q :=
  let (s, f) := pair in
  if Z.eqb (s + f) 0 then 0%Q else (inject_Z s / inject_Z (s + f) * 100)%Q.

Definition rate_value (pair : Z * Z) : Q :=
  let (s, t) := pair in
  if Z.ltb 0 t then (inject_Z s / inject_Z t * 100)%Q else 0%Q.





Definition has_colour {V} (c : colour) (l : line V) : bool :=
  match c, ln_colour l with
  | green, green => true
  | red, red => true
  | _, _ => false
  end.

(** The axis range in the words of the specification, from the least and
    the greatest strictly positive final:
    [[max(99.0, min - spread/2), min(100.0, max + spread/2)]] when the spread
    is below [0.5], [[max(95.0, min - 1.0), 100.5]] otherwise. *)
Definition spec_zoom_range (min_final max_final : Q) : Q * Q :=
  let spread := (max_final - min_final)%Q in
  if Qlt_le_dec spread (1 # 2) then
    (Qmax 99 (min_final - spread / 2), Qmin 100 (max_final + spread / 2))%Q
  else
    (Qmax 95 (min_final - 1), 201 # 2)%Q.

(** Sample input: four data sets with the finals 1, 2, 3 and 4. *)
Definition four_duts : dict (list Z) :=
  [("a", [1%Z]); ("b", [2%Z]); ("c", [3%Z]); ("d", [4%Z])].

(** The present series of every data set have [min_len] entries, as in
    the data sets [truncate_all] returns. *)
Definition aligned_at (min_len : nat) (stats_map : dict stats_t) : Prop :=
  Forall (fun stats => Forall (fun v => List.length v = min_len) (values stats))
         (values stats_map).

(** [x] does not come after [y] in ascending order: the value of [y] is not
    below that of [x]. *)
Definition not_above {V} (ltb : V -> V -> bool) (x y : string * V) : Prop :=
  ltb (snd y) (snd x) = false.

(** What every parsed data set satisfies: distinct metric names, and no
    empty series (a series exists from its first sample on). *)
Definition parsed_ok (stats : stats_t) : Prop :=
  dict_wf stats /\ Forall (fun series => series <> []) (values stats).

(** A line of the shape the summary pattern accepts. *)
Definition summary_line (lead ws1 pct ws2 succ tot rest : string) : string :=
  (lead ++ "buffer_migrate_folio_norefs:" ++ ws1 ++ pct ++ "% success"
        ++ ws2 ++ "(" ++ succ ++ "/" ++ tot ++ ")" ++ rest)%string.

(* ================================================================= *)
(** ** human_format *)

Definition digit_char (d : Z) : ascii := ascii_of_nat (48 + Z.to_nat d).

(** The decimal digits of a non-negative integer, most significant first;
    [fuel] bounds the number of digits. *)
Fixpoint decimal_digits_from (fuel : nat) (n : Z) (acc : string) : string :=
  match fuel with
  | O => acc
  | S fuel' =>
      let acc' := String (digit_char (n mod 10)) acc in
      if Z.eqb (n / 10) 0 then acc' else decimal_digits_from fuel' (n / 10) acc'
  end.

Definition decimal_digits (n : Z) : string :=
  decimal_digits_from (S (Z.to_nat (Z.log2 n))) n EmptyString.

(** The [,] of a format specification, on the digits least significant
    first: a comma after every complete group of three digits that more
    digits follow. *)
Fixpoint group_rev (k : nat) (rev_digits : list ascii) : list ascii :=
  match rev_digits with
  | [] => []
  | c :: r =>
      match r with
      | [] => [c]
      | _ :: _ =>
          if Nat.eqb k 2 then c :: ","%char :: group_rev 0 r
          else c :: group_rev (S k) r
      end
  end.

Definition with_commas (digits : string) : string :=
  string_of_list_ascii (rev (group_rev 0 (rev (list_ascii_of_string digits)))).

(** [f"{n:,}"] for an integer [n]. *)
Definition format_commas (n : Z) : string :=
  if Z.ltb n 0 then String "-" (with_commas (decimal_digits (- n)))
  else with_commas (decimal_digits n).

Definition human_format (num : Z) : string :=
  if Z.leb 1000000 num then (format_commas (num / 1000000) ++ "M")%string
  else if Z.leb 1000 num then (format_commas (num / 1000) ++ "K")%string
  else format_commas num.

(* ================================================================= *)
(** ** main *)

Fixpoint has_char (c : ascii) (s : string) : bool :=
  match s with
  | EmptyString => false
  | String x r => Ascii.eqb x c || has_char c r
  end.

(** [os.path.basename(p)]: what follows the last [/]. *)
Fixpoint basename (p : string) : string :=
  match p with
  | EmptyString => EmptyString
  | String c r =>
      if has_char "/" r then basename r
      else if Ascii.eqb c "/" then r else p
  end.

(** The text before and after the last occurrence of [c]. *)
Fixpoint rsplit_at (c : ascii) (l : list ascii) : option (list ascii * list ascii) :=
  match l with
  | [] => None
  | x :: r =>
      match rsplit_at c r with
      | Some (before, after) => Some (x :: before, after)
      | None => if Ascii.eqb x c then Some ([], r) else None
      end
  end.

(** [os.path.splitext(p)[0]]: [p] without its extension.  The last dot
    starts an extension when it comes after the last [/] and the file name
    has a character other than a dot in front of it. *)
Definition splitext_root (p : string) : string :=
  match rsplit_at "." (list_ascii_of_string p) with
  | None => p
  | Some (before, ext) =>
      if existsb (Ascii.eqb "/") ext then p
      else
        let file_name :=
          match rsplit_at "/" before with
          | Some (_, name) => name
          | None => before
          end in
        if existsb (fun c => negb (Ascii.eqb c ".")) file_name
        then string_of_list_ascii before
        else p
  end.

(** [os.path.splitext(os.path.basename(file))[0]] *)
Definition dataset_name (file : string) : string := splitext_root (basename file).

(** [d[k] = v] *)
Fixpoint dict_set {V} (d : dict V) (k : string) (v : V) : dict V :=
  match d with
  | [] => [(k, v)]
  | (k', v') :: d' =>
      if String.eqb k' k then (k', v) :: d' else (k', v') :: dict_set d' k v
  end.

(** How [main] can end without its figures: the argument parser wants at
    least one file; a file cannot be opened; a number in a file is
    malformed; no series was parsed at all; a chart routine raises. *)
Inductive main_error : Type :=
| NoFileGiven
| CannotOpen (file : string)
| BadNumber (file : string)
| NoSeries
| ChartRaises (e : exn).

(** The loop [for file in args.stats_files: ...]; [fs] gives the text of
    the files that can be opened. *)
Fixpoint load_stats (fs : string -> option string) (stats_files : list string)
    (stats_raw : dict stats_t) : main_error + dict stats_t :=
  match stats_files with
  | [] => inr stats_raw
  | file :: rest =>
      let name := dataset_name file in
      match fs file with
      | None => inl (CannotOpen file)
      | Some text =>
          match parse_stats_file text with
          | None => inl (BadNumber file)
          | Some stats => load_stats fs rest (dict_set stats_raw name stats)
          end
      end
  end.



(* ================================================================= *)
(** ** collect-stats.py *)

(** The lines a text file yields: as [file_lines], without the empty piece
    after a final newline. *)
Definition py_file_lines (text : string) : list string :=
  let pieces := file_lines text in
  match last pieces EmptyString with
  | EmptyString => removelast pieces
  | String _ _ => pieces
  end.

(** [s.split()]: the maximal runs of characters that are not whitespace. *)
Definition str_split (s : string) : list string :=
  filter (fun t => negb (is_empty t)) (re_split_ws s).

(** What the collector does, in order: a shell command or a printed line. *)
Inductive action : Type :=
| System (command : string)
| Print (text : string).

Inductive collect_error : Type :=
| RosterMissing
| RosterLine (line : string).

Definition guest_actions (guest dut : string) : list action :=
  [System ("ssh " ++ guest ++ " sudo cp /root/stats /home/kdevops/");
   System ("ssh " ++ guest ++ " sudo chown kdevops /home/kdevops/stats");
   System ("scp " ++ guest ++ ":/home/kdevops/stats " ++ dut ++ ".stats.txt");
   Print ("Guest: " ++ guest ++ String "009" ("DUT: " ++ dut))]%string.

(** The loop over the roster: the actions done, and the line at which
    [guest, dut = line.strip().split()] raised [ValueError], if any. *)
Fixpoint collect_lines (lines : list string) : list action * option collect_error :=
  match lines with
  | [] => ([], None)
  | line :: rest =>
      match str_split (strip line) with
      | [guest; dut] =>
          let (actions, err) := collect_lines rest in
          (guest_actions guest dut ++ actions, err)
      | _ => ([], Some (RosterLine line))
      end
  end.

(** The whole script; [guests_txt] is the text of [guests.txt], when it can
    be opened. *)
Definition collect_stats (guests_txt : option string)
    : list action * option collect_error :=
  match guests_txt with
  | None => ([System "rm -f *.stats.txt"], Some RosterMissing)
  | Some text =>
      let (actions, err) := collect_lines (py_file_lines text) in
      (System "rm -f *.stats.txt" :: actions, err)
  end.

(* ================================================================= *)
(** ** Further vocabulary *)

Fixpoint no_space (s : string) : bool :=
  match s with
  | EmptyString => true
  | String c r => negb (is_space c) && no_space r
  end.

(** [s] without its commas. *)
Definition strip_commas (s : string) : string :=
  string_of_list_ascii
    (filter (fun c => negb (Ascii.eqb c ",")) (list_ascii_of_string s)).

(** What a line adds to the series of [metric] when parsed on its own. *)
Definition line_samples (metric : string) (raw : string) : list Z :=
  match parse_line [] raw with
  | Some stats => dict_get stats metric []
  | None => []
  end.

(** A line the parser passes over: blank, a bracketed header, or the
    [Success ratios:] header. *)
Definition skipped_line (raw : string) : Prop :=
  all_space raw = true
  \/ (exists lead rest, all_space lead = true /\ raw = (lead ++ "[" ++ rest)%string)
  \/ (exists lead rest,
         all_space lead = true /\ raw = (lead ++ "Success ratios:" ++ rest)%string).

(** A line made of a key and a value, with whitespace around them. *)
Definition sample_line (lead key ws value trail : string) : string :=
  (lead ++ key ++ ws ++ value ++ trail)%string.

(** No line break inside [s]. *)
Definition no_newline (s : string) : bool :=
  negb (has_char "010" s) && negb (has_char "013" s).

(** The text of a file whose lines are [lines], each ended by a newline. *)
Fixpoint unlines (lines : list string) : string :=
  match lines with
  | [] => EmptyString
  | l :: ls => (l ++ String "010" (unlines ls))%string
  end.

(** The data set a line draws: its name and its series. *)
Definition line_item {V} (l : line V) : string * list V := (ln_name l, ln_series l).

(** How a line of a valid-only chart with [n] data sets is drawn: the best
    one on top, the worst one just below, a middle one at its gradient
    index, which stays below [n] and within the range of the colour
    normalisation. *)
Definition layered {V} (n : nat) (l : line V) : Prop :=
  match ln_colour l with
  | green => ln_zorder l = (n + 1)%nat /\ ln_width l = (5 # 2)%Q
  | red => ln_zorder l = n /\ ln_width l = (5 # 2)%Q
  | cmap _ idx vmax =>
      ln_zorder l = idx /\ (idx < n)%nat /\ (idx <= vmax)%nat
      /\ ln_width l = (3 # 2)%Q
  end.

(** The chart, if one is drawn, has a time axis of [min_len] points and
    only series of [min_len] points. *)
Definition lengths_agree {V} (min_len : nat) (o : outcome (chart V)) : Prop :=
  match o with
  | Saved c =>
      List.length (ch_time c) = min_len
      /\ Forall (fun l => List.length (ln_series l) = min_len) (ch_lines c)
  | _ => True
  end.

(** How a line of the success-rate chart is drawn: best on layer 3, worst
    on layer 2, a middle one on layer 1 with a grey level strictly inside
    the range of the colour normalisation. *)
Definition layered_pct (l : line Q) : Prop :=
  ln_width l = 2%Q
  /\ match ln_colour l with
     | green => ln_zorder l = 3%nat
     | red => ln_zorder l = 2%nat
     | cmap _ idx vmax => ln_zorder l = 1%nat /\ (1 <= idx)%nat /\ (idx < vmax)%nat
     end.

(** The gradient index of a middle line is the position of its data set in
    [sorted_duts], counted after the first entry. *)
Definition ranked_by_position {V} (sorted_duts : list (string * V)) (l : line V)
    : Prop :=
  match ln_colour l with
  | cmap _ idx _ => exists v, nth_error sorted_duts (S idx) = Some (ln_name l, v)
  | _ => True
  end.

(** [s] has a character other than a dot. *)
Fixpoint has_non_dot (s : string) : bool :=
  match s with
  | EmptyString => false
  | String c r => negb (Ascii.eqb c ".") || has_non_dot r
  end.


(** A roster line that names [guest] and [dut]: two words, with whitespace
    between and around them. *)
Definition roster_line (line : string) (entry : string * string) : Prop :=
  exists lead ws trail,
    line = sample_line lead (fst entry) ws (snd entry) trail
    /\ all_space lead = true /\ all_space ws = true /\ ws <> EmptyString
    /\ all_space trail = true
    /\ no_space (fst entry) = true /\ fst entry <> EmptyString
    /\ no_space (snd entry) = true /\ snd entry <> EmptyString.

(** What the collector does for the guests of [roster], in order. *)
Definition roster_actions (roster : list (string * string)) : list action :=
  flat_map (fun entry => guest_actions (fst entry) (snd entry)) roster.

(** The file the collector stages for a device under test. *)
Definition staged_file (dut : string) : string := (dut ++ ".stats.txt")%string.

(** The suffix of a label of [human_format] and the unit it stands for. *)
Definition human_unit (num : Z) : string * Z :=
  if Z.leb 1000000 num then ("M", 1000000%Z)
  else if Z.leb 1000 num then ("K", 1000%Z)
  else (EmptyString, 1%Z).

(** Words joined by single spaces. *)
Fixpoint join_words (words : list string) : string :=
  match words with
  | [] => EmptyString
  | w :: rest =>
      match rest with
      | [] => w
      | _ :: _ => (w ++ String " " (join_words rest))%string
      end
  end.

(** [stackplot(time, fails, success)]: the upper edge of the stacked areas
    of a panel, the sum of the two series at each point. *)
Definition stack_top (p : panel) : list Z :=
  map (fun pair => (fst pair + snd pair)%Z) (combine (pn_fails p) (pn_success p)).


(* ================================================================= *)
(** * Properties *)

(** ** Text primitives *)

Section TextLemmas.

Lemma digit_not_space c : is_digit c = true -> is_space c = false.
Proof.
destruct c as [[] [] [] [] [] [] [] []]; vm_compute; congruence.
Qed.

Lemma lstrip_spaces ws s : all_space ws = true -> lstrip (ws ++ s) = lstrip s.
Proof.
induction ws as [|c ws IH]; simpl; intros H; [reflexivity|].
apply andb_true_iff in H as [Hc Hws]. rewrite Hc. auto.
Qed.

Lemma lstrip_nonspace c s : is_space c = false -> lstrip (String c s) = String c s.
Proof. intros H; simpl; now rewrite H. Qed.

Lemma rstrip_nonspace c s : is_space c = false -> rstrip (String c s) = String c (rstrip s).
Proof. intros H; simpl. destruct (rstrip s); [now rewrite H | reflexivity]. Qed.

Lemma rstrip_has_nonspace s : has_nonspace s = true -> rstrip s <> "".
Proof.
induction s as [|c s IH]; simpl; [discriminate|].
intros H. destruct (rstrip s) eqn:E.
- destruct (is_space c); simpl in H; [now apply IH in H | discriminate].
- discriminate.
Qed.

Lemma rstrip_app s1 s2 :
has_nonspace s2 = true -> rstrip (s1 ++ s2) = (s1 ++ rstrip s2)%string.
Proof.
intros H. induction s1 as [|c s1 IH]; simpl; [reflexivity|].
rewrite IH. destruct (s1 ++ rstrip s2)%string eqn:E; [|reflexivity].
exfalso. destruct s1; simpl in E; [|discriminate].
now apply rstrip_has_nonspace in H.
Qed.

Lemma has_nonspace_app s1 s2 :
has_nonspace (s1 ++ s2) = has_nonspace s1 || has_nonspace s2.
Proof. induction s1; simpl; [reflexivity|]. rewrite IHs1. now rewrite orb_assoc. Qed.

Lemma rstrip_all_nonspace s : all_digits s = true -> rstrip s = s.
Proof.
induction s as [|c s IH]; simpl; [reflexivity|]. intros H.
apply andb_true_iff in H as [Hc Hs]. rewrite (IH Hs).
destruct s; [now rewrite (digit_not_space _ Hc)|reflexivity].
Qed.

Lemma match_lit_app lit s : match_lit lit (lit ++ s) = Some s.
Proof. induction lit; simpl; [reflexivity|]. now rewrite Ascii.eqb_refl. Qed.

Lemma match_spaces_app ws s :
all_space ws = true -> ws <> "" -> lstrip s = s -> match_spaces (ws ++ s) = Some s.
Proof.
destruct ws as [|c ws]; [congruence|]. simpl. intros H _ Hs.
apply andb_true_iff in H as [Hc Hws]. rewrite Hc.
now rewrite lstrip_spaces, Hs.
Qed.

Lemma take_digits_app ds c r :
all_digits ds = true -> is_digit c = false ->
take_digits (ds ++ String c r) = (ds, String c r).
Proof.
intros H Hc. induction ds as [|d ds IH]; simpl.
- now rewrite Hc.
- simpl in H. apply andb_true_iff in H as [Hd Hds]. now rewrite Hd, (IH Hds).
Qed.

Lemma match_digits_app ds c r :
all_digits ds = true -> ds <> "" -> is_digit c = false ->
match_digits (ds ++ String c r) = Some (ds, String c r).
Proof.
intros H Hne Hc. unfold match_digits. rewrite take_digits_app by assumption.
destruct ds; congruence.
Qed.

Lemma int_body_digits s : forall b acc,
all_digits s = true -> (b = true \/ s <> "") ->
int_body b acc s = Some (decimal_from acc s).
Proof.
induction s as [|c s IH]; simpl; intros b acc H Hb.
- destruct Hb as [-> | Hb]; [reflexivity | congruence].
- apply andb_true_iff in H as [Hc Hs]. rewrite Hc. apply IH; auto.
Qed.

Lemma py_int_digits s :
all_digits s = true -> s <> "" -> py_int s = Some (decimal_value s).
Proof.
intros H Hne. unfold py_int, strip.
destruct s as [|c s]; [congruence|].
pose proof H as H'. simpl in H'. apply andb_true_iff in H' as [Hc Hs].
rewrite (lstrip_nonspace _ _ (digit_not_space _ Hc)).
rewrite (rstrip_all_nonspace _ H).
assert (Ascii.eqb c "-" = false) as ->.
{ destruct (Ascii.eqb_spec c "-"); [subst; discriminate | reflexivity]. }
assert (Ascii.eqb c "+" = false) as ->.
{ destruct (Ascii.eqb_spec c "+"); [subst; discriminate | reflexivity]. }
apply int_body_digits; [assumption | right; discriminate].
Qed.

End TextLemmas.

(** ** The derived-metric loops never raise *)

Lemma traverse_total {A B} (f : A -> option B) (g : A -> B) (l : list A) :
  (forall x, f x = Some (g x)) -> traverse f l = Some (map g l).
Proof.
  intros H. induction l as [|x l IH]; simpl; [reflexivity|].
  now rewrite H, IH.
Qed.

Lemma ratio_at_value pair : ratio_at pair = Some (ratio_value pair).
Proof.
  destruct pair as [s f]. unfold ratio_at, ratio_value, py_truediv.
  destruct (Z.eqb (s + f) 0); reflexivity.
Qed.

Lemma rate_at_value pair : rate_at pair = Some (rate_value pair).
Proof.
  destruct pair as [s t]. unfold rate_at, rate_value, py_truediv.
  destruct (Z.ltb_spec 0 t) as [H|H]; [|reflexivity].
  destruct (Z.eqb_spec t 0); [lia | reflexivity].
Qed.

Lemma valid_ratio_value v_success v_fails :
  valid_ratio v_success v_fails = Some (map ratio_value (combine v_success v_fails)).
Proof. apply traverse_total, ratio_at_value. Qed.

Lemma norefs_pct_value success total :
  norefs_pct success total = Some (map rate_value (combine success total)).
Proof. apply traverse_total, rate_at_value. Qed.

(** ** parse_stats_file *)

Lemma strip_summary_line lead ws1 pct ws2 succ tot rest :
  all_space lead = true ->
  strip (summary_line lead ws1 pct ws2 succ tot rest)
  = summary_line "" ws1 pct ws2 succ tot (rstrip rest).
Proof.
  intros Hl. unfold strip, summary_line.
  rewrite lstrip_spaces by assumption.
  change ("buffer_migrate_folio_norefs:" ++ ?x)%string
    with (String "b" ("uffer_migrate_folio_norefs:" ++ x)).
  rewrite lstrip_nonspace by reflexivity.
  change (String "b" ("uffer_migrate_folio_norefs:" ++ ?x))
    with ("buffer_migrate_folio_norefs:" ++ x)%string.
  repeat (rewrite rstrip_app;
          [ | repeat rewrite has_nonspace_app; simpl; now rewrite ?orb_true_r ]).
  change (")" ++ rest)%string with (String ")" rest).
  rewrite rstrip_nonspace by reflexivity.
  reflexivity.
Qed.

Lemma re_match_summary_line ws1 pct ws2 succ tot rest :
  all_space ws1 = true -> ws1 <> "" ->
  all_digits pct = true -> pct <> "" ->
  all_space ws2 = true -> ws2 <> "" ->
  all_digits succ = true -> succ <> "" ->
  all_digits tot = true -> tot <> "" ->
  re_match_norefs (summary_line "" ws1 pct ws2 succ tot rest) = Some (pct, succ, tot).
Proof.
  intros Hw1 Nw1 Hp Np Hw2 Nw2 Hs Ns Ht Nt.
  unfold re_match_norefs, summary_line.
  change ("" ++ ?x)%string with x.
  rewrite match_lit_app. cbn [obind].
  rewrite match_spaces_app; trivial.
  2:{ destruct pct as [|c p]; [congruence|]. simpl in Hp.
      apply andb_true_iff in Hp as [Hc _]. simpl.
      now rewrite (digit_not_space _ Hc). }
  cbn [obind].
  change ("% success" ++ ?x)%string with (String "%" (" success" ++ x)).
  rewrite match_digits_app by (trivial; reflexivity). cbn [obind].
  change (String "%" (" success" ++ ?x)) with ("% success" ++ x)%string.
  rewrite match_lit_app. cbn [obind].
  rewrite match_spaces_app by (trivial; reflexivity). cbn [obind].
  rewrite match_lit_app. cbn [obind].
  change ("/" ++ ?x)%string with (String "/" x).
  rewrite match_digits_app by (trivial; reflexivity). cbn [obind].
  change (String "/" ?x) with ("/" ++ x)%string.
  rewrite match_lit_app. cbn [obind].
  change (")" ++ ?x)%string with (String ")" x).
  rewrite match_digits_app by (trivial; reflexivity). cbn [obind].
  change (String ")" ?x) with (")" ++ x)%string.
  rewrite match_lit_app. reflexivity.
Qed.

(** C4, as the code has it: a line made of optional leading whitespace, the
    literal label [buffer_migrate_folio_norefs:], whitespace, a percentage,
    [% success], whitespace and [(<success>/<total>)], followed by anything,
    appends the integer [success] to [norefs_success_summary] and the integer
    [total] to [norefs_total_summary] and ignores the percentage; parsed as
    the only line it yields exactly these two one-element series, and the
    rate derived from them is [success / total * 100] ([0] if [total] is not
    positive). *)
Theorem norefs_summary_line_parsed :
  forall (stats : stats_t) (lead ws1 pct ws2 succ tot rest : string),
    all_space lead = true ->
    all_space ws1 = true -> ws1 <> "" ->
    all_digits pct = true -> pct <> "" ->
    all_space ws2 = true -> ws2 <> "" ->
    all_digits succ = true -> succ <> "" ->
    all_digits tot = true -> tot <> "" ->
    let line := summary_line lead ws1 pct ws2 succ tot rest in
    let s := decimal_value succ in
    let t := decimal_value tot in
    parse_line stats line
    = Some (setdefault_append "norefs_total_summary" t
              (setdefault_append "norefs_success_summary" s stats))
    /\ parse_lines [] [line]
       = Some [("norefs_success_summary", [s]); ("norefs_total_summary", [t])]
    /\ norefs_pct_of
         [("norefs_success_summary", [s]); ("norefs_total_summary", [t])] 1
       = Some [rate_value (s, t)].
Proof.
  intros stats lead ws1 pct ws2 succ tot rest Hl Hw1 Nw1 Hp Np Hw2 Nw2 Hs Ns Ht Nt
         line s t.
  assert (Hline : forall st, parse_line st line
            = Some (setdefault_append "norefs_total_summary" t
                      (setdefault_append "norefs_success_summary" s st))).
  { intros st. unfold parse_line, line.
    rewrite strip_summary_line by assumption.
    rewrite re_match_summary_line by assumption.
    rewrite (py_int_digits succ), (py_int_digits tot) by assumption.
    reflexivity. }
  split; [apply Hline|]. split.
  - cbn [parse_lines]. rewrite Hline. reflexivity.
  - unfold norefs_pct_of. rewrite norefs_pct_value. reflexivity.
Qed.

(** The scenario of C4: the line
    [buffer_migrate_folio_norefs: 97% success (970/1000)] parsed alone. *)
Lemma norefs_summary_line_parsed_witness :
  parse_stats_file "buffer_migrate_folio_norefs: 97% success (970/1000)"
  = Some [("norefs_success_summary", [970%Z]); ("norefs_total_summary", [1000%Z])]
  /\ exists rate,
       norefs_pct_of
         [("norefs_success_summary", [970%Z]); ("norefs_total_summary", [1000%Z])] 1
       = Some [rate]
       /\ (rate == 97)%Q.
Proof.
  destruct (norefs_summary_line_parsed [] "" " " "97" " " "970" "1000" ""
              eq_refl eq_refl ltac:(discriminate) eq_refl ltac:(discriminate)
              eq_refl ltac:(discriminate) eq_refl ltac:(discriminate)
              eq_refl ltac:(discriminate)) as (_ & Hfile & _).
  split.
  - exact Hfile.
  - eexists; split; [reflexivity | reflexivity].
Defined.

(** C4 as stated fails for a label other than the literal one: the line is
    dropped and neither summary series is created. *)
Lemma other_label_summary_line_dropped :
  parse_stats_file "foo: 97% success (970/1000)" = Some []
  /\ parse_stats_file "foo: 97% success (970/1000)"
     <> Some [("norefs_success_summary", [970%Z]); ("norefs_total_summary", [1000%Z])].
Proof. split; [reflexivity | discriminate]. Qed.

(** C10: a two-token line whose second token is a negative literal is
    accepted and the negative value is appended, whatever was parsed
    before; so a parsed series can hold a negative integer. *)
Theorem negative_value_is_parsed :
  parse_stats_file "fails -3" = Some [("fails", [(-3)%Z])]
  /\ (forall stats : stats_t,
        parse_line stats "fails -3" = Some (setdefault_append "fails" (-3)%Z stats))
  /\ exists (text : string) (stats : stats_t) (series : list Z) (v : Z),
       parse_stats_file text = Some stats
       /\ In ("fails", series) stats /\ In v series /\ (v < 0)%Z.
Proof.
  split; [reflexivity|]. split; [intros; reflexivity|].
  exists "fails -3", [("fails", [(-3)%Z])], [(-3)%Z], (-3)%Z.
  repeat split; simpl; auto.
Qed.

(** ** truncate_all *)

Lemma fold_min_nat_spec r : forall x,
  let m := fold_left (py_min2 Nat.ltb) r x in
  In m (x :: r) /\ Forall (fun n => m <= n)%nat (x :: r).
Proof.
  induction r as [|y r IH]; intros x; cbn [fold_left].
  - split; [now left | constructor; [lia | constructor]].
  - destruct (IH (py_min2 Nat.ltb x y)) as [Hin Hall].
    inversion Hall as [|? ? Hle Hr]; subst.
    unfold py_min2 in *. destruct (Nat.ltb_spec y x) as [Hlt|Hge].
    + split.
      * destruct Hin as [<- | Hin]; [right; now left | right; now right].
      * constructor; [lia | constructor; [exact Hle | exact Hr]].
    + split.
      * destruct Hin as [<- | Hin]; [now left | right; now right].
      * constructor; [exact Hle | constructor; [lia | exact Hr]].
Qed.

Lemma series_lengths_nil stats_dicts :
  series_lengths stats_dicts = [] <-> Forall (fun stats => stats = []) (values stats_dicts).
Proof.
  unfold series_lengths. induction (values stats_dicts) as [|stats l IH]; simpl.
  - split; auto.
  - split.
    + intros H. apply app_eq_nil in H as [H1 H2].
      constructor; [|now apply IH].
      destruct stats; [reflexivity | discriminate].
    + intros H. inversion H; subst. simpl. now apply IH.
Qed.

Lemma series_lengths_exists stats_dicts :
  series_lengths stats_dicts <> [] ->
  Exists (fun stats => stats <> []) (values stats_dicts).
Proof.
  unfold series_lengths. induction (values stats_dicts) as [|stats l IH]; simpl.
  - congruence.
  - intros H. destruct stats as [|kv stats].
    + right. now apply IH.
    + left. discriminate.
Qed.

Lemma series_lengths_in (stats_dicts : dict stats_t) stats v :
  In stats (values stats_dicts) -> In v (values stats) ->
  In (List.length v) (series_lengths stats_dicts).
Proof.
  intros Hs Hv. unfold series_lengths. apply in_flat_map.
  exists stats. split; [assumption | now apply in_map].
Qed.

Lemma values_truncate_stats m stats :
  values (truncate_stats m stats) = map (firstn m) (values stats).
Proof.
  unfold values, truncate_stats. rewrite !map_map.
  apply map_ext. now intros [k v].
Qed.

Lemma keys_truncate_stats m stats : keys (truncate_stats m stats) = keys stats.
Proof.
  unfold keys, truncate_stats. rewrite map_map. apply map_ext. now intros [k v].
Qed.

(** C3: [truncate_all] raises exactly when no data set has any series (in
    particular when there is no data set); otherwise it returns [min_len],
    the least series length over all metrics of all data sets, and the data
    sets with the same names and metric names in which every series is the
    prefix of length [min_len] of the original one, has exactly [min_len]
    entries, and [min_len] is at most every original length. *)
Theorem truncate_all_aligns :
  forall stats_dicts : dict stats_t,
    (truncate_all stats_dicts = None
     /\ (stats_dicts = [] \/ Forall (fun stats => stats = []) (values stats_dicts)))
    \/
    (exists aligned min_len,
        truncate_all stats_dicts = Some (aligned, min_len)
        /\ stats_dicts <> []
        /\ Exists (fun stats => stats <> []) (values stats_dicts)
        /\ In min_len (series_lengths stats_dicts)
        /\ Forall (fun n => min_len <= n)%nat (series_lengths stats_dicts)
        /\ aligned = map (fun '(name, stats) => (name, truncate_stats min_len stats))
                         stats_dicts
        /\ keys aligned = keys stats_dicts
        /\ Forall2 (fun stats stats' => keys stats' = keys stats
                      /\ values stats' = map (firstn min_len) (values stats))
                   (values stats_dicts) (values aligned)
        /\ Forall (fun stats => Forall (fun v => List.length v = min_len) (values stats))
                  (values aligned)
        /\ Forall (fun stats => Forall (fun v => min_len <= List.length v)%nat
                                       (values stats))
                  (values stats_dicts)).
Proof.
  intros sd. unfold truncate_all.
  destruct (series_lengths sd) as [|x r] eqn:E.
  - left. split; [reflexivity|]. right. now apply series_lengths_nil.
  - right. cbn [py_min obind].
    destruct (fold_min_nat_spec r x) as [Hin Hall].
    set (m := fold_left (py_min2 Nat.ltb) r x) in *.
    assert (Hle : Forall (fun stats => Forall (fun v => m <= List.length v)%nat
                                       (values stats)) (values sd)).
    { apply Forall_forall. intros stats Hs. apply Forall_forall. intros v Hv.
      rewrite Forall_forall in Hall. apply Hall. rewrite <- E.
      now apply series_lengths_in with stats. }
    eexists _, m. split; [reflexivity|].
    split; [intros ->; discriminate|].
    split.
    { apply series_lengths_exists. congruence. }
    split; [exact Hin|]. split; [exact Hall|]. split; [reflexivity|].
    split.
    { unfold keys. rewrite map_map. apply map_ext. now intros [n s]. }
    split.
    { unfold values. rewrite map_map. clear.
      induction sd as [|[n s] sd IH]; simpl; constructor; auto.
      split; [apply keys_truncate_stats | apply values_truncate_stats]. }
    split; [|exact Hle].
    unfold values at 2. rewrite map_map.
    apply Forall_forall. intros stats' Hs'.
    apply in_map_iff in Hs' as ([n s] & <- & Hin').
    cbn [snd]. rewrite values_truncate_stats.
    apply Forall_forall. intros v' Hv'.
    apply in_map_iff in Hv' as (v & <- & Hv).
    rewrite length_firstn.
    rewrite Forall_forall in Hle.
    assert (Hs : In s (values sd)) by (apply in_map_iff; exists (n, s); auto).
    specialize (Hle s Hs). rewrite Forall_forall in Hle. specialize (Hle v Hv). lia.
Qed.

(** ** The derived metrics *)









(** ** Missing metrics *)














(** ** [sorted] *)

Section SortedFacts.
Context {V : Type} (ltb : V -> V -> bool).

Lemma insert_item_perm x l : Permutation (insert_item ltb x l) (x :: l).
Proof.
  induction l as [|y l IH]; simpl; [apply Permutation_refl|].
  destruct (ltb (snd y) (snd x)); [|apply Permutation_refl].
  eapply perm_trans; [apply perm_skip, IH | apply perm_swap].
Qed.

Lemma sorted_by_value_perm l : Permutation (sorted_by_value ltb l) l.
Proof.
  induction l as [|x l IH]; simpl; [constructor|].
  eapply perm_trans; [apply insert_item_perm | now apply perm_skip].
Qed.

Lemma sorted_by_value_length l :
  List.length (sorted_by_value ltb l) = List.length l.
Proof. apply Permutation_length, sorted_by_value_perm. Qed.

Lemma sorted_by_value_nil l : sorted_by_value ltb l = [] -> l = [].
Proof.
  intros H. apply Permutation_nil. rewrite <- H.
  apply sorted_by_value_perm.
Qed.

Hypothesis ltb_asym : forall a b, ltb a b = true -> ltb b a = false.
Hypothesis not_ltb_trans :
  forall a b c, ltb b a = false -> ltb c b = false -> ltb c a = false.

Lemma not_above_refl x : (not_above ltb) x x.
Proof.
  unfold not_above. destruct (ltb (snd x) (snd x)) eqn:E; [|reflexivity].
  now rewrite (ltb_asym _ _ E) in E.
Qed.

Lemma insert_item_sorted x l :
  StronglySorted (not_above ltb) l -> StronglySorted (not_above ltb) (insert_item ltb x l).
Proof.
  induction 1 as [|y l Hs IH Hy]; simpl.
  - constructor; constructor.
  - destruct (ltb (snd y) (snd x)) eqn:E.
    + constructor; [exact IH|].
      eapply Permutation_Forall; [apply Permutation_sym, insert_item_perm|].
      constructor; [|exact Hy]. unfold not_above. now apply ltb_asym.
    + constructor; [now constructor|].
      constructor; [exact E|].
      eapply Forall_impl; [|exact Hy]. unfold not_above.
      intros z Hz. eapply not_ltb_trans; eassumption.
Qed.

Lemma sorted_by_value_sorted l : StronglySorted (not_above ltb) (sorted_by_value ltb l).
Proof.
  induction l; simpl; [constructor | now apply insert_item_sorted].
Qed.

Lemma sorted_first_least first rest :
  StronglySorted (not_above ltb) (first :: rest) ->
  Forall ((not_above ltb) first) (first :: rest).
Proof.
  intros H. inversion H; subst. constructor; [apply not_above_refl | assumption].
Qed.

Lemma sorted_last_greatest l : forall d,
  StronglySorted (not_above ltb) l -> Forall (fun x => (not_above ltb) x (last l d)) l.
Proof.
  induction l as [|x l IH]; intros d H; [constructor|].
  inversion H as [|? ? Hs Hx]; subst.
  destruct l as [|y l].
  - constructor; [apply not_above_refl | constructor].
  - change (last (x :: y :: l) d) with (last (y :: l) d).
    constructor; [|now apply IH].
    rewrite Forall_forall in Hx. apply Hx.
    destruct (exists_last (l:=y :: l)) as (l' & a & E); [discriminate|].
    rewrite E, last_last. apply in_or_app. right. now left.
Qed.
End SortedFacts.

Lemma Zltb_asym a b : Z.ltb a b = true -> Z.ltb b a = false.
Proof. rewrite Z.ltb_lt, Z.ltb_ge. lia. Qed.

Lemma Zltb_not_trans a b c :
  Z.ltb b a = false -> Z.ltb c b = false -> Z.ltb c a = false.
Proof. rewrite !Z.ltb_ge. lia. Qed.

Lemma Qltb_lt a b : Qltb a b = true <-> (a < b)%Q.
Proof.
  unfold Qltb. rewrite Qlt_alt. destruct (a ?= b)%Q; split; congruence.
Qed.

Lemma Qltb_ge a b : Qltb a b = false <-> (b <= a)%Q.
Proof.
  rewrite <- not_true_iff_false, Qltb_lt. split.
  - apply Qnot_lt_le.
  - apply Qle_not_lt.
Qed.

Lemma Qltb_asym a b : Qltb a b = true -> Qltb b a = false.
Proof. rewrite Qltb_lt, Qltb_ge. apply Qlt_le_weak. Qed.

Lemma Qltb_not_trans a b c :
  Qltb b a = false -> Qltb c b = false -> Qltb c a = false.
Proof. rewrite !Qltb_ge. intros H1 H2. eapply Qle_trans; eassumption. Qed.

Lemma last_cons_default {A} (l : list A) : forall x d, last (x :: l) d = last l x.
Proof.
  induction l as [|y l IH]; intros x d; [reflexivity|].
  change (last (x :: y :: l) d) with (last (y :: l) d).
  now rewrite !IH.
Qed.

Lemma py_last_cons {A} (x : A) l : py_last (x :: l) = Some (last (x :: l) x).
Proof. unfold py_last. now rewrite last_cons_default. Qed.

(** ** The rankings of the valid-only charts *)







(** ** The zoom heuristic *)

Lemma py_max2_Qmax a b : py_max2 Qltb a b = Qmax a b.
Proof.
  unfold py_max2, Qltb, Qmax, GenericMinMax.gmax.
  now destruct (a ?= b)%Q.
Qed.

Lemma py_min2_Qmin a b : py_min2 Qltb a b = Qmin a b.
Proof.
  unfold py_min2, Qltb, Qmin, GenericMinMax.gmin.
  rewrite <- (Qcompare_antisym a b). now destruct (a ?= b)%Q.
Qed.

Lemma fold_min_Q_spec r : forall x,
  let m := fold_left (py_min2 Qltb) r x in
  In m (x :: r) /\ Forall (fun v => m <= v)%Q (x :: r).
Proof.
  induction r as [|y r IH]; intros x; cbn [fold_left].
  - split; [now left | constructor; [apply Qle_refl | constructor]].
  - destruct (IH (py_min2 Qltb x y)) as [Hin Hall].
    inversion Hall as [|? ? Hle Hr]; subst.
    unfold py_min2 in *. destruct (Qltb y x) eqn:E.
    + apply Qltb_lt in E. split.
      * destruct Hin as [<- | Hin]; [right; now left | right; now right].
      * constructor; [|constructor; [exact Hle | exact Hr]].
        eapply Qle_trans; [exact Hle | now apply Qlt_le_weak].
    + apply Qltb_ge in E. split.
      * destruct Hin as [<- | Hin]; [now left | right; now right].
      * constructor; [exact Hle | constructor; [|exact Hr]].
        eapply Qle_trans; [exact Hle | exact E].
Qed.

Lemma fold_max_Q_spec r : forall x,
  let m := fold_left (py_max2 Qltb) r x in
  In m (x :: r) /\ Forall (fun v => v <= m)%Q (x :: r).
Proof.
  induction r as [|y r IH]; intros x; cbn [fold_left].
  - split; [now left | constructor; [apply Qle_refl | constructor]].
  - destruct (IH (py_max2 Qltb x y)) as [Hin Hall].
    inversion Hall as [|? ? Hle Hr]; subst.
    unfold py_max2 in *. destruct (Qltb x y) eqn:E.
    + apply Qltb_lt in E. split.
      * destruct Hin as [<- | Hin]; [right; now left | right; now right].
      * constructor; [|constructor; [exact Hle | exact Hr]].
        apply Qle_trans with y; [now apply Qlt_le_weak | exact Hle].
    + apply Qltb_ge in E. split.
      * destruct Hin as [<- | Hin]; [now left | right; now right].
      * constructor; [exact Hle | constructor; [|exact Hr]].
        apply Qle_trans with x; [exact E | exact Hle].
Qed.

Lemma zoom_ylim_cases (final_ratios : dict Q) :
  let positive := filter (fun v => Qltb 0 v) (values final_ratios) in
  (positive = [] /\ zoom_ylim final_ratios = (95, 201 # 2)%Q)
  \/ (exists mn mx,
         In mn positive /\ In mx positive
         /\ Forall (fun v => mn <= v <= mx)%Q positive
         /\ zoom_ylim final_ratios
            = if Qltb (mx - mn) (1 # 2) then
                (py_max2 Qltb 99 (mn - (mx - mn) * (1 # 2)),
                 py_min2 Qltb 100 (mx + (mx - mn) * (1 # 2)))%Q
              else (py_max2 Qltb 95 (mn - 1), 201 # 2)%Q).
Proof.
  intros positive. unfold zoom_ylim. fold positive.
  destruct positive as [|x r]; [left; split; reflexivity|].
  right. cbn [py_min py_max].
  destruct (fold_min_Q_spec r x) as [Hmin Hle].
  destruct (fold_max_Q_spec r x) as [Hmax Hge].
  eexists _, _. split; [exact Hmin|]. split; [exact Hmax|].
  split; [|reflexivity].
  rewrite Forall_forall in *. intros v Hv. split; auto.
Qed.

(** C5: the axis range of the ratio chart is computed from the strictly
    positive finals only; when there is none it is [[95.0, 100.5]];
    otherwise, with [min] and [max] the least and greatest of them, it is
    the range of the specification: [[max(99.0, min - spread/2),
    min(100.0, max + spread/2)]] when [spread = max - min] is below [0.5],
    [[max(95.0, min - 1.0), 100.5]] else. *)
Theorem zoom_ylim_as_specified :
  forall final_ratios : dict Q,
  exists positive,
    (forall v, In v positive <-> In v (values final_ratios) /\ (0 < v)%Q)
    /\ ((positive = [] /\ zoom_ylim final_ratios = (95, 201 # 2)%Q)
        \/ (exists min_final max_final,
               In min_final positive /\ In max_final positive
               /\ Forall (fun v => min_final <= v <= max_final)%Q positive
               /\ zoom_ylim final_ratios = spec_zoom_range min_final max_final)).
Proof.
  intros fr. exists (filter (fun v => Qltb 0 v) (values fr)). split.
  - intros v. rewrite filter_In, Qltb_lt. reflexivity.
  - destruct (zoom_ylim_cases fr) as [H | (mn & mx & H1 & H2 & H3 & H4)];
      [now left | right].
    exists mn, mx. split; [exact H1|]. split; [exact H2|]. split; [exact H3|].
    rewrite H4. unfold spec_zoom_range.
    destruct (Qlt_le_dec (mx - mn) (1 # 2)) as [Hlt | Hge].
    + apply Qltb_lt in Hlt. rewrite Hlt.
      now rewrite py_max2_Qmax, py_min2_Qmin.
    + apply Qltb_ge in Hge. rewrite Hge.
      now rewrite py_max2_Qmax.
Qed.





(** ** plot_success_rate on aligned data *)

Lemma py_index_in l x : In x l -> exists i, py_index l x = Some i.
Proof.
  induction l as [|y l IH]; simpl; [contradiction|].
  intros H. destruct (String.eqb_spec y x) as [E|E]; [now exists 0%nat|].
  destruct H as [H|H]; [contradiction|].
  destruct (IH H) as [i ->]. now exists (S i).
Qed.

Lemma in_slice_1_m1 {A} (x first : A) rest :
  In x (first :: rest) -> x <> first -> x <> last (first :: rest) first ->
  In x (slice_1_m1 (first :: rest)).
Proof.
  unfold slice_1_m1. cbn [tl]. intros [H|H] H1 H2; [congruence|].
  destruct (exists_last (l:=rest)) as (l' & a & E).
  { intros ->. destruct H. }
  subst rest. rewrite removelast_last.
  change (last (first :: l' ++ [a]) first) with
    (match l' ++ [a] with [] => first | _ :: _ => last (l' ++ [a]) first end) in H2.
  destruct (l' ++ [a]) eqn:E'; [now destruct l'|]. rewrite <- E' in *.
  rewrite last_last in H2.
  apply in_app_or in H as [H|[H|[]]]; [exact H | congruence].
Qed.

Lemma traverse_some_map {A B} (f : A -> option B) (g : A -> B) (l : list A) :
  Forall (fun x => f x = Some (g x)) l -> traverse f l = Some (map g l).
Proof.
  induction 1 as [|x l Hx _ IH]; simpl; [reflexivity|]. now rewrite Hx, IH.
Qed.

Lemma success_rate_lines_some best worst (sorted_duts : list (string * Q))
      (pct_by_dut : dict (list Q)) first rest :
  sorted_duts = first :: rest ->
  worst = fst first -> best = fst (last sorted_duts first) ->
  incl (keys pct_by_dut) (map fst sorted_duts) ->
  exists lines,
    success_rate_lines best worst (map fst (slice_1_m1 sorted_duts)) pct_by_dut
    = Some lines.
Proof.
  intros Es Hw Hb. induction pct_by_dut as [|[dut pct] d IH]; intros Hincl.
  - now exists [].
  - destruct IH as [lns IH].
    { intros k Hk. apply Hincl. now right. }
    cbn [success_rate_lines]. rewrite IH.
    destruct (String.eqb_spec dut best) as [E1|E1]; [eexists; reflexivity|].
    destruct (String.eqb_spec dut worst) as [E2|E2]; [eexists; reflexivity|].
    assert (Hin : In dut (map fst (slice_1_m1 sorted_duts))).
    { assert (Hd : In dut (map fst sorted_duts)) by (apply Hincl; now left).
      apply in_map_iff in Hd as (x & Hx & Hd).
      apply in_map_iff. exists x. split; [exact Hx|].
      rewrite Es in *. apply in_slice_1_m1; [exact Hd | |]; intros ->; congruence. }
    destruct (py_index_in _ _ Hin) as [i ->]. eexists; reflexivity.
Qed.


Lemma dict_get_length {A} (stats : dict (list A)) k default n :
  Forall (fun v => List.length v = n) (values stats) -> List.length default = n ->
  List.length (dict_get stats k default) = n.
Proof.
  intros H Hd. induction stats as [|[k' v] d IH]; simpl; [exact Hd|].
  inversion H; subst. destruct (String.eqb k' k); auto.
Qed.

Lemma norefs_pct_by_dut_value stats_map min_len :
  norefs_pct_by_dut stats_map min_len
  = Some (map (fun '(dut_name, stats) =>
                 (dut_name,
                  map rate_value
                    (combine (dict_get stats "norefs_success_summary" (zeros min_len))
                             (dict_get stats "norefs_total_summary" (zeros min_len)))))
              stats_map).
Proof.
  unfold norefs_pct_by_dut. apply traverse_total. intros [n s].
  unfold norefs_pct_of. now rewrite norefs_pct_value.
Qed.



(** ** Absent metrics and the charts *)










(** ** Exactly one best and one worst data set *)

Lemma dict_wf_same_key {V} (d : dict V) k v1 v2 :
  dict_wf d -> In (k, v1) d -> In (k, v2) d -> v1 = v2.
Proof.
  unfold dict_wf, keys. induction d as [|[k' v] d IH]; simpl; [contradiction|].
  intros Hnd H1 H2. inversion Hnd as [|? ? Hnotin Hnd']; subst.
  destruct H1 as [H1|H1], H2 as [H2|H2].
  - congruence.
  - injection H1 as -> ->. exfalso. apply Hnotin.
    apply in_map_iff. now exists (k, v2).
  - injection H2 as -> ->. exfalso. apply Hnotin.
    apply in_map_iff. now exists (k, v1).
  - now apply IH.
Qed.

Section ExtremesDiffer.
Context {V : Type} (ltb : V -> V -> bool).
Hypothesis ltb_asym : forall a b, ltb a b = true -> ltb b a = false.
Hypothesis not_ltb_trans :
  forall a b c, ltb b a = false -> ltb c b = false -> ltb c a = false.

Lemma sorted_extremes_in (finals : dict V) first rest :
  sorted_by_value ltb finals = first :: rest ->
  In first finals /\ In (last (first :: rest) first) finals.
Proof.
  intros E. pose proof (sorted_by_value_perm ltb finals) as P. rewrite E in P.
  split; (eapply Permutation_in; [exact P|]); [now left|].
  destruct (exists_last (l:=first :: rest)) as (l' & a & El); [discriminate|].
  rewrite El, last_last. apply in_or_app. right. now left.
Qed.

Lemma sorted_extremes_differ (finals : dict V) first rest :
  dict_wf finals ->
  sorted_by_value ltb finals = first :: rest ->
  (exists x y, In x finals /\ In y finals /\ ltb (snd x) (snd y) = true) ->
  fst first <> fst (last (first :: rest) first).
Proof.
  intros Hwf E (x & y & Hx & Hy & Hxy) Heq.
  destruct (sorted_extremes_in _ _ _ E) as [Hf Hl].
  set (final := last (first :: rest) first) in *.
  assert (Hsame : snd first = snd final).
  { apply (dict_wf_same_key finals (fst first)); [exact Hwf | |].
    - now rewrite <- surjective_pairing.
    - rewrite Heq. now rewrite <- surjective_pairing. }
  pose proof (sorted_by_value_perm ltb finals) as P.
  pose proof (sorted_by_value_sorted ltb ltb_asym not_ltb_trans finals) as S.
  rewrite E in P, S.
  pose proof (sorted_first_least ltb ltb_asym _ _ S) as Hmin.
  pose proof (sorted_last_greatest ltb ltb_asym _ first S) as Hmax.
  rewrite Forall_forall in Hmin, Hmax.
  assert (Hx' : In x (first :: rest))
    by (eapply Permutation_in; [apply Permutation_sym, P | exact Hx]).
  assert (Hy' : In y (first :: rest))
    by (eapply Permutation_in; [apply Permutation_sym, P | exact Hy]).
  specialize (Hmin x Hx'). specialize (Hmax y Hy').
  unfold not_above in Hmin, Hmax. fold final in Hmax. rewrite <- Hsame in Hmax.
  (* y <= first <= x, against x < y *)
  pose proof (not_ltb_trans _ _ _ Hmax Hmin) as Hc.
  congruence.
Qed.
End ExtremesDiffer.

Lemma keys_guarded_finals {V} (zero : V) (d : dict (list V)) :
  keys (guarded_finals zero d) = keys d.
Proof.
  unfold keys, guarded_finals. rewrite map_map. apply map_ext. now intros [n s].
Qed.

Section RankedLinesFacts.
Context {V : Type}.
Variables (b w : string) (m : list string) (mb mw : option ascii).

Lemma ranked_lines_as_map (d : dict (list V)) :
  exists n vmax,
    ranked_lines b w m mb mw d
    = map (fun '(dut_name, series) =>
             if String.eqb dut_name b then mk_line dut_name series green (n + 1) (5 # 2) mb
             else if String.eqb dut_name w then mk_line dut_name series red n (5 # 2) mw
             else mk_line dut_name series
                    (cmap "viridis" (guarded_index m dut_name) vmax)
                    (guarded_index m dut_name) (3 # 2) None) d.
Proof. eexists _, _. reflexivity. Qed.

Lemma green_lines (d : dict (list V)) :
  dict_wf d -> In b (keys d) ->
  map ln_name (filter (has_colour green) (ranked_lines b w m mb mw d)) = [b].
Proof.
  destruct (ranked_lines_as_map d) as (n & vmax & ->).
  unfold dict_wf, keys.
  induction d as [|[name series] d IH]; cbn [map]; [contradiction|].
  intros Hnd Hin. inversion Hnd as [|? ? Hnotin Hnd']; subst.
  destruct (String.eqb_spec name b) as [->|Ne].
  - cbn [filter has_colour ln_colour map ln_name]. f_equal.
    clear IH Hin Hnd. induction d as [|[k s] d IH]; [reflexivity|].
    cbn [map filter]. cbn [map] in Hnotin, Hnd'.
    inversion Hnd'; subst.
    destruct (String.eqb_spec k b) as [->|Nk]; [elim Hnotin; now left|].
    destruct (String.eqb k w); cbn [has_colour ln_colour];
      apply IH; auto; intros H; apply Hnotin; now right.
  - destruct Hin as [E|Hin]; [contradiction|].
    destruct (String.eqb name w); cbn [filter has_colour ln_colour]; now apply IH.
Qed.

Lemma red_lines (d : dict (list V)) :
  dict_wf d -> In w (keys d) -> w <> b ->
  map ln_name (filter (has_colour red) (ranked_lines b w m mb mw d)) = [w].
Proof.
  destruct (ranked_lines_as_map d) as (n & vmax & ->).
  unfold dict_wf, keys. intros Hnd Hin Hwb.
  induction d as [|[name series] d IH]; cbn [map]; [contradiction|].
  inversion Hnd as [|? ? Hnotin Hnd']; subst.
  destruct (String.eqb_spec name w) as [->|Ne].
  - destruct (String.eqb_spec w b) as [E|_]; [contradiction|].
    cbn [filter has_colour ln_colour map ln_name]. f_equal.
    clear IH Hin Hnd. induction d as [|[k s] d IH]; [reflexivity|].
    cbn [map filter]. cbn [map] in Hnotin, Hnd'.
    inversion Hnd'; subst.
    destruct (String.eqb_spec k w) as [->|Nk]; [elim Hnotin; now left|].
    destruct (String.eqb k b); cbn [has_colour ln_colour];
      apply IH; auto; intros H; apply Hnotin; now right.
  - destruct Hin as [E|Hin]; [contradiction|].
    destruct (String.eqb name b); cbn [filter has_colour ln_colour]; now apply IH.
Qed.
End RankedLinesFacts.

Section GuardedRanking.
Context {V : Type} (ltb : V -> V -> bool) (zero : V).
Hypothesis ltb_asym : forall a b, ltb a b = true -> ltb b a = false.
Hypothesis not_ltb_trans :
  forall a b c, ltb b a = false -> ltb c b = false -> ltb c a = false.

Lemma guarded_ranking_extremes (d : dict (list V)) :
  dict_wf d ->
  (exists x y, In x (guarded_finals zero d) /\ In y (guarded_finals zero d)
               /\ ltb (snd x) (snd y) = true) ->
  exists first rest,
    sorted_by_value ltb (guarded_finals zero d) = first :: rest
    /\ py_last (first :: rest) = Some (last (first :: rest) first)
    /\ fst first <> fst (last (first :: rest) first)
    /\ In (fst first) (keys d)
    /\ In (fst (last (first :: rest) first)) (keys d).
Proof.
  intros Hwf Hex.
  destruct (sorted_by_value ltb (guarded_finals zero d)) as [|first rest] eqn:E.
  { apply sorted_by_value_nil in E. destruct Hex as (x & _ & Hx & _).
    rewrite E in Hx. destruct Hx. }
  exists first, rest. split; [reflexivity|]. split; [apply py_last_cons|].
  assert (Hwf' : dict_wf (guarded_finals zero d))
    by (unfold dict_wf; now rewrite keys_guarded_finals).
  split; [now apply (sorted_extremes_differ ltb ltb_asym not_ltb_trans _ _ _ Hwf' E)|].
  destruct (sorted_extremes_in ltb _ _ _ E) as [Hf Hl].
  rewrite <- (keys_guarded_finals zero d).
  split; apply in_map; assumption.
Qed.
End GuardedRanking.

Lemma Z_distinct_ordered (finals : dict Z) :
  (exists x y, In x finals /\ In y finals /\ snd x <> snd y) ->
  exists x y, In x finals /\ In y finals /\ Z.ltb (snd x) (snd y) = true.
Proof.
  intros (x & y & Hx & Hy & Hne).
  destruct (Z.lt_ge_cases (snd x) (snd y)) as [H|H].
  - exists x, y. now rewrite Z.ltb_lt.
  - exists y, x. rewrite Z.ltb_lt. repeat split; auto; lia.
Qed.

Lemma Q_distinct_ordered (finals : dict Q) :
  (exists x y, In x finals /\ In y finals /\ ~ (snd x == snd y)%Q) ->
  exists x y, In x finals /\ In y finals /\ Qltb (snd x) (snd y) = true.
Proof.
  intros (x & y & Hx & Hy & Hne).
  destruct (Q_dec (snd x) (snd y)) as [[H|H]|H]; [| |contradiction].
  - exists x, y. now rewrite Qltb_lt.
  - exists y, x. now rewrite Qltb_lt.
Qed.

(** The success chart: with at least two distinct finals exactly one data
    set is drawn as the best one and exactly one as the worst one, and they
    differ. *)
Lemma success_chart_one_best_one_worst (d : dict (list Z)) (time : list Q) :
  dict_wf d ->
  (exists x y, In x (guarded_finals 0%Z d) /\ In y (guarded_finals 0%Z d)
               /\ snd x <> snd y) ->
  exists rk c,
    success_ranking d = Some rk
    /\ rk_best rk <> rk_worst rk
    /\ plot_valid_success d time = Saved c
    /\ map ln_name (filter (has_colour green) (ch_lines c)) = [rk_best rk]
    /\ map ln_name (filter (has_colour red) (ch_lines c)) = [rk_worst rk].
Proof.
  intros Hwf Hex. apply Z_distinct_ordered in Hex.
  destruct (guarded_ranking_extremes Z.ltb 0%Z Zltb_asym Zltb_not_trans d Hwf Hex)
    as (first & rest & E & El & Hne & Hf & Hl).
  unfold plot_valid_success, success_ranking. rewrite E, El.
  eexists _, _. split; [reflexivity|]. cbn [rk_best rk_worst rk_middle ch_lines].
  split; [congruence|]. split; [reflexivity|].
  split; [now apply green_lines | apply red_lines; auto].
Qed.

(** The fail chart, likewise. *)
Lemma fails_chart_one_best_one_worst (d : dict (list Z)) (time : list Q) :
  dict_wf d ->
  (exists x y, In x (guarded_finals 0%Z d) /\ In y (guarded_finals 0%Z d)
               /\ snd x <> snd y) ->
  exists rk c,
    fails_ranking d = Some rk
    /\ rk_best rk <> rk_worst rk
    /\ plot_valid_fails d time = Saved c
    /\ map ln_name (filter (has_colour green) (ch_lines c)) = [rk_best rk]
    /\ map ln_name (filter (has_colour red) (ch_lines c)) = [rk_worst rk].
Proof.
  intros Hwf Hex. apply Z_distinct_ordered in Hex.
  destruct (guarded_ranking_extremes Z.ltb 0%Z Zltb_asym Zltb_not_trans d Hwf Hex)
    as (first & rest & E & El & Hne & Hf & Hl).
  unfold plot_valid_fails, fails_ranking. rewrite E, El.
  eexists _, _. split; [reflexivity|]. cbn [rk_best rk_worst rk_middle ch_lines].
  split; [exact Hne|]. split; [reflexivity|].
  split; [now apply green_lines | apply red_lines; auto].
Qed.

(** The ratio chart, likewise. *)
Lemma ratio_chart_one_best_one_worst (d : dict (list Q)) (time : list Q) :
  dict_wf d ->
  (exists x y, In x (guarded_finals 0%Q d) /\ In y (guarded_finals 0%Q d)
               /\ ~ (snd x == snd y)%Q) ->
  exists rk c,
    ratio_ranking d = Some rk
    /\ rk_best rk <> rk_worst rk
    /\ plot_valid_ratio d time = Saved c
    /\ map ln_name (filter (has_colour green) (ch_lines c)) = [rk_best rk]
    /\ map ln_name (filter (has_colour red) (ch_lines c)) = [rk_worst rk].
Proof.
  intros Hwf Hex. apply Q_distinct_ordered in Hex.
  destruct (guarded_ranking_extremes Qltb 0%Q Qltb_asym Qltb_not_trans d Hwf Hex)
    as (first & rest & E & El & Hne & Hf & Hl).
  unfold plot_valid_ratio, ratio_ranking. rewrite E, El.
  eexists _, _. split; [reflexivity|]. cbn [rk_best rk_worst rk_middle ch_lines].
  split; [congruence|]. split; [reflexivity|].
  split; [now apply green_lines | apply red_lines; auto].
Qed.

(** A single data set is the best and the worst one at once, and is drawn
    as the best one. *)
Lemma single_dut_best_and_worst (name : string) (series : list Z) (pct : list Q)
      (time : list Q) :
  success_ranking [(name, series)] = Some (mk_ranking name name [])
  /\ fails_ranking [(name, series)] = Some (mk_ranking name name [])
  /\ ratio_ranking [(name, pct)] = Some (mk_ranking name name [])
  /\ (pct <> [] -> success_rate_ranking [(name, pct)] = Saved (mk_ranking name name []))
  /\ plot_valid_success [(name, series)] time
     = Saved (mk_chart time [mk_line name series green 2 (5 # 2) None] None).
Proof.
  split; [reflexivity|]. split; [reflexivity|]. split; [reflexivity|].
  split; [now destruct pct|].
  unfold plot_valid_success, success_ranking, ranked_lines. simpl.
  now rewrite String.eqb_refl.
Qed.

(** C1: the three valid-only charts take [series[-1] if series else 0] as
    the final value; [plot_success_rate] takes [series[-1]] unguarded.  On
    the data set [truncate_all] returns for one data set with one empty
    series the valid-only rankings use the final [0], and
    [plot_success_rate] raises [IndexError] where the claim wants the final
    [0]. *)
Theorem success_rate_final_of_empty_series_raises :
  truncate_all [("A", [("x", [])])] = Some ([("A", [("x", [])])], 0%nat)
  /\ norefs_pct_by_dut [("A", [("x", [])])] 0 = Some [("A", [])]
  /\ guarded_finals 0%Q [("A", @nil Q)] = [("A", 0%Q)]
  /\ ratio_ranking [("A", [])] = Some (mk_ranking "A" "A" [])
  /\ success_rate_ranking [("A", [])] = Raises IndexError
  /\ plot_success_rate [("A", [("x", [])])] 0 = Raises IndexError
  /\ (forall (name : string) (series : list Q),
        guarded_final 0%Q series
        = match series with [] => 0%Q | _ :: _ => last series 0%Q end).
Proof.
  repeat split; reflexivity || (intros; reflexivity).
Qed.

(** C8: on an empty mapping the three valid-only charts return before
    drawing anything; [plot_success_rate] has no such guard and raises
    [IndexError] at [sorted_duts[0]]. *)
Theorem success_rate_on_empty_mapping_raises :
  (forall time, plot_valid_ratio [] time = NoOp)
  /\ (forall time, plot_valid_success [] time = NoOp)
  /\ (forall time, plot_valid_fails [] time = NoOp)
  /\ (forall min_len, plot_success_rate [] min_len = Raises IndexError).
Proof. repeat split; intros; reflexivity. Qed.

(** ** From parsed files to the charts *)

Lemma setdefault_append_keys k v (d : stats_t) :
  keys (setdefault_append k v d) = if dict_mem d k then keys d else keys d ++ [k].
Proof.
  induction d as [|[k' l] d IH]; simpl; [reflexivity|].
  destruct (String.eqb k' k); simpl; [reflexivity|].
  rewrite IH. now destruct (dict_mem d k).
Qed.

Lemma dict_mem_in {V} (d : dict V) k : dict_mem d k = true <-> In k (keys d).
Proof.
  induction d as [|[k' v] d IH]; simpl; [split; [discriminate | contradiction]|].
  rewrite orb_true_iff, IH, String.eqb_eq. reflexivity.
Qed.

Lemma setdefault_append_wf k v (d : stats_t) :
  dict_wf d -> dict_wf (setdefault_append k v d).
Proof.
  unfold dict_wf. rewrite setdefault_append_keys.
  destruct (dict_mem d k) eqn:E; [auto|]. intros H.
  apply NoDup_app; [exact H | repeat constructor; auto |].
  intros x Hx [<-|[]]. apply dict_mem_in in Hx. congruence.
Qed.

Lemma setdefault_append_nonempty k v (d : stats_t) :
  Forall (fun series => series <> []) (values d) ->
  Forall (fun series => series <> []) (values (setdefault_append k v d)).
Proof.
  induction d as [|[k' l] d IH]; simpl; intros H.
  - repeat constructor. discriminate.
  - inversion H; subst. destruct (String.eqb k' k); simpl; constructor; auto.
    now destruct l.
Qed.


Lemma setdefault_append_ok k v stats :
  parsed_ok stats -> parsed_ok (setdefault_append k v stats).
Proof.
  intros [H1 H2]. split;
    [now apply setdefault_append_wf | now apply setdefault_append_nonempty].
Qed.

Lemma parse_line_ok stats raw stats' :
  parsed_ok stats -> parse_line stats raw = Some stats' -> parsed_ok stats'.
Proof.
  intros Hok. unfold parse_line.
  destruct (is_empty (strip raw) || startswith (strip raw) "[");
    [intros [= <-]; exact Hok|].
  destruct (re_match_norefs (strip raw)) as [[[g1 g2] g3]|].
  - destruct (py_int g2) as [success|]; [|discriminate].
    destruct (py_int g3) as [total|]; [|discriminate].
    cbn [obind]. intros [= <-]. now do 2 apply setdefault_append_ok.
  - destruct (startswith (strip raw) "Success ratios:"); [intros [= <-]; exact Hok|].
    destruct (re_split_ws (strip raw)) as [|key [|value [|x parts]]];
      try (intros [= <-]; exact Hok).
    destruct (py_int value) as [v|]; [|discriminate].
    cbn [obind]. intros [= <-]. now apply setdefault_append_ok.
Qed.

Lemma parse_lines_ok lines : forall stats stats',
  parsed_ok stats -> parse_lines stats lines = Some stats' -> parsed_ok stats'.
Proof.
  induction lines as [|l ls IH]; intros stats stats' Hok; cbn [parse_lines].
  - intros [= <-]. exact Hok.
  - destruct (parse_line stats l) as [st|] eqn:E; [|discriminate].
    cbn [obind]. apply IH. eapply parse_line_ok; eassumption.
Qed.

Lemma parse_stats_file_ok text stats :
  parse_stats_file text = Some stats -> parsed_ok stats.
Proof.
  apply parse_lines_ok. split; [constructor | constructor].
Qed.

Lemma truncate_all_aligned stats_dicts aligned min_len :
  truncate_all stats_dicts = Some (aligned, min_len) ->
  aligned <> [] /\ aligned_at min_len aligned
  /\ In min_len (series_lengths stats_dicts).
Proof.
  unfold truncate_all.
  destruct (series_lengths stats_dicts) as [|x r] eqn:E; [discriminate|].
  cbn [py_min obind]. intros [= <- <-].
  destruct (fold_min_nat_spec r x) as [Hin Hall].
  set (m := fold_left (py_min2 Nat.ltb) r x) in *.
  split; [destruct stats_dicts; [discriminate E | discriminate]|].
  split; [|exact Hin].
  unfold aligned_at, values. rewrite map_map.
  apply Forall_forall. intros stats' Hs'.
  apply in_map_iff in Hs' as ([n s] & <- & Hin').
  cbn [snd]. fold (values (truncate_stats m s)). rewrite values_truncate_stats.
  apply Forall_forall. intros v' Hv'.
  apply in_map_iff in Hv' as (v & <- & Hv).
  rewrite length_firstn.
  assert (In (List.length v) (x :: r)).
  { rewrite <- E. apply series_lengths_in with s; [|exact Hv].
    apply in_map_iff. exists (n, s). auto. }
  rewrite Forall_forall in Hall. specialize (Hall _ H). lia.
Qed.


(** ** The ranking of the success-rate chart, on non-empty series *)

Lemma unguarded_finals_keys {V} (by_dut : dict (list V)) : forall finals,
  unguarded_finals by_dut = Some finals -> keys finals = keys by_dut.
Proof.
  unfold unguarded_finals.
  induction by_dut as [|[dut series] d IH]; intros finals; cbn [traverse].
  - now intros [= <-].
  - destruct (py_last series) as [v|]; [|discriminate]. cbn [obind].
    destruct (traverse _ d) as [fs|]; [|discriminate]. cbn [obind].
    intros [= <-]. simpl. now rewrite (IH fs eq_refl).
Qed.

Lemma success_rate_lines_names b w m (d : dict (list Q)) : forall lines,
  success_rate_lines b w m d = Some lines ->
  map ln_name (filter (has_colour green) lines)
  = filter (String.eqb b) (keys d)
  /\ map ln_name (filter (has_colour red) lines)
     = filter (fun k => negb (String.eqb b k) && String.eqb w k) (keys d).
Proof.
  induction d as [|[dut pct] d IH]; intros lines; cbn [success_rate_lines].
  - intros [= <-]. now split.
  - destruct (success_rate_lines b w m d) as [lns|]; cycle 1.
    { destruct (if String.eqb dut b then _ else _); discriminate. }
    destruct (IH lns eq_refl) as [IHg IHr].
    cbn [keys map fst filter]. fold (keys d).
    rewrite (String.eqb_sym b dut), (String.eqb_sym w dut).
    destruct (String.eqb dut b).
    + cbn [obind]. intros [= <-].
      cbn [filter has_colour ln_colour map ln_name negb andb].
      split; [now f_equal | exact IHr].
    + destruct (String.eqb dut w).
      * cbn [obind]. intros [= <-].
        cbn [filter has_colour ln_colour map ln_name negb andb].
        split; [exact IHg | now f_equal].
      * destruct (py_index m dut); [|discriminate].
        cbn [obind]. intros [= <-].
        cbn [filter has_colour ln_colour map ln_name negb andb].
        split; assumption.
Qed.

Lemma filter_eqb_unique (x : string) (l : list string) :
  NoDup l -> In x l -> filter (String.eqb x) l = [x].
Proof.
  induction l as [|y l IH]; [contradiction|].
  intros Hnd Hin. inversion Hnd as [|? ? Hnotin Hnd']; subst. cbn [filter].
  destruct (String.eqb_spec x y) as [->|Ne].
  - f_equal. clear IH Hin Hnd. induction l as [|z l IH]; [reflexivity|].
    cbn [filter]. inversion Hnd'; subst.
    destruct (String.eqb_spec y z) as [->|_]; [elim Hnotin; now left|].
    apply IH; auto. intros H. apply Hnotin. now right.
  - destruct Hin as [E|Hin]; [congruence | now apply IH].
Qed.

Lemma filter_other_unique (b w : string) (l : list string) :
  NoDup l -> In w l -> w <> b ->
  filter (fun k => negb (String.eqb b k) && String.eqb w k) l = [w].
Proof.
  intros Hnd Hin Hne.
  rewrite (filter_ext _ (String.eqb w)); [now apply filter_eqb_unique|].
  intros k. destruct (String.eqb_spec w k) as [<-|_]; [|apply andb_false_r].
  destruct (String.eqb_spec b w); [congruence | reflexivity].
Qed.

(** The success-rate chart, when every derived series is non-empty: with at
    least two distinct finals exactly one data set is drawn as the best one
    and exactly one as the worst one, and they differ. *)
Lemma success_rate_chart_one_best_one_worst (pct_by_dut : dict (list Q)) finals :
  dict_wf pct_by_dut ->
  unguarded_finals pct_by_dut = Some finals ->
  (exists x y, In x finals /\ In y finals /\ ~ (snd x == snd y)%Q) ->
  exists rk lines,
    success_rate_ranking pct_by_dut = Saved rk
    /\ rk_best rk <> rk_worst rk
    /\ success_rate_lines (rk_best rk) (rk_worst rk) (rk_middle rk) pct_by_dut
       = Some lines
    /\ map ln_name (filter (has_colour green) lines) = [rk_best rk]
    /\ map ln_name (filter (has_colour red) lines) = [rk_worst rk].
Proof.
  intros Hwf Hf Hex. apply Q_distinct_ordered in Hex.
  pose proof (unguarded_finals_keys _ _ Hf) as K.
  assert (Hwf' : dict_wf finals) by (unfold dict_wf; now rewrite K).
  unfold success_rate_ranking. rewrite Hf.
  destruct (sorted_by_value Qltb finals) as [|first rest] eqn:E.
  { apply sorted_by_value_nil in E. destruct Hex as (x & _ & Hx & _).
    rewrite E in Hx. destruct Hx. }
  rewrite py_last_cons.
  pose proof (sorted_extremes_differ Qltb Qltb_asym Qltb_not_trans _ _ _ Hwf' E Hex)
    as Hne.
  destruct (sorted_extremes_in Qltb _ _ _ E) as [Hfi Hla].
  destruct (success_rate_lines_some (fst (last (first :: rest) first)) (fst first)
              (first :: rest) pct_by_dut first rest eq_refl eq_refl eq_refl)
    as [lines Hl].
  { rewrite <- K, <- E. intros k Hk.
    eapply Permutation_in; [|exact Hk].
    apply Permutation_map, Permutation_sym, sorted_by_value_perm. }
  eexists _, lines. split; [reflexivity|]. cbn [rk_best rk_worst rk_middle].
  split; [congruence|]. split; [exact Hl|].
  destruct (success_rate_lines_names _ _ _ _ _ Hl) as [Hg Hr].
  rewrite Hg, Hr. rewrite <- K.
  split; [apply filter_eqb_unique | apply filter_other_unique]; auto;
    apply in_map; assumption.
Qed.

(** ** More on text *)

Lemma append_nil_r (s : string) : (s ++ "")%string = s.
Proof. induction s; simpl; congruence. Qed.

Lemma append_assoc (a b c : string) : ((a ++ b) ++ c)%string = (a ++ b ++ c)%string.
Proof. induction a; simpl; congruence. Qed.

Lemma no_space_app s1 s2 : no_space (s1 ++ s2) = no_space s1 && no_space s2.
Proof. induction s1; simpl; [reflexivity|]. now rewrite IHs1, andb_assoc. Qed.

Lemma lstrip_no_space s : no_space s = true -> lstrip s = s.
Proof.
  destruct s as [|c s]; simpl; [reflexivity|]. intros H.
  apply andb_true_iff in H as [Hc _]. apply negb_true_iff in Hc. now rewrite Hc.
Qed.

Lemma rstrip_no_space s : no_space s = true -> rstrip s = s.
Proof.
  induction s as [|c s IH]; simpl; [reflexivity|]. intros H.
  apply andb_true_iff in H as [Hc Hs]. apply negb_true_iff in Hc.
  rewrite (IH Hs). destruct s; [now rewrite Hc | reflexivity].
Qed.

Lemma strip_no_space s : no_space s = true -> strip s = s.
Proof. intros H. unfold strip. now rewrite lstrip_no_space, rstrip_no_space. Qed.

Lemma no_space_has_nonspace s : no_space s = true -> s <> "" -> has_nonspace s = true.
Proof.
  destruct s as [|c s]; simpl; [congruence|]. intros H _.
  apply andb_true_iff in H as [-> _]. reflexivity.
Qed.

Lemma rstrip_all_space s : all_space s = true -> rstrip s = "".
Proof.
  induction s as [|c s IH]; simpl; [reflexivity|]. intros H.
  apply andb_true_iff in H as [Hc Hs]. now rewrite (IH Hs), Hc.
Qed.

Lemma rstrip_app_spaces s t : all_space t = true -> rstrip (s ++ t) = rstrip s.
Proof.
  intros H. induction s as [|c s IH]; simpl; [now apply rstrip_all_space|].
  now rewrite IH.
Qed.

Lemma strip_all_space s : all_space s = true -> strip s = "".
Proof.
  intros H. unfold strip. rewrite <- (append_nil_r s), lstrip_spaces by exact H.
  reflexivity.
Qed.

(** The stripped form of a key and a value with whitespace around them. *)
Lemma strip_sample_line lead key ws value trail :
  all_space lead = true -> all_space trail = true ->
  no_space key = true -> key <> "" ->
  no_space value = true -> value <> "" ->
  strip (sample_line lead key ws value trail) = (key ++ ws ++ value)%string.
Proof.
  intros Hl Ht Hk Nk Hv Nv. unfold strip, sample_line.
  rewrite lstrip_spaces by exact Hl.
  assert (E : lstrip (key ++ ws ++ value ++ trail) = (key ++ ws ++ value ++ trail)%string).
  { destruct key as [|c k]; [congruence|]. simpl in Hk |- *.
    apply andb_true_iff in Hk as [Hc _]. apply negb_true_iff in Hc. now rewrite Hc. }
  rewrite E.
  rewrite <- (append_assoc ws value trail), <- (append_assoc key (ws ++ value) trail).
  rewrite rstrip_app_spaces by exact Ht.
  rewrite rstrip_app.
  2:{ rewrite has_nonspace_app, (no_space_has_nonspace value Hv Nv). apply orb_true_r. }
  rewrite rstrip_app by (now apply no_space_has_nonspace).
  now rewrite rstrip_no_space.
Qed.

Lemma split_ws_token t : forall s,
  no_space t = true ->
  split_ws false (t ++ s)
  = match split_ws false s with
    | x :: xs => (t ++ x)%string :: xs
    | [] => [t]
    end.
Proof.
  induction t as [|c t IH]; intros s H.
  - simpl. destruct (split_ws false s) eqn:E; [|reflexivity].
    destruct s as [|c s]; [discriminate|]. simpl in E.
    destruct (is_space c); [discriminate|].
    destruct (split_ws false s); discriminate.
  - simpl in H. apply andb_true_iff in H as [Hc Ht]. apply negb_true_iff in Hc.
    cbn [append split_ws]. rewrite Hc, (IH s Ht).
    destruct (split_ws false s); reflexivity.
Qed.

Lemma split_ws_in_run ws : forall s,
  all_space ws = true -> split_ws true (ws ++ s) = split_ws true s.
Proof.
  induction ws as [|c ws IH]; intros s H; [reflexivity|].
  simpl in H. apply andb_true_iff in H as [Hc Hws].
  cbn [append split_ws]. rewrite Hc. now apply IH.
Qed.

Lemma split_ws_flag c s b :
  is_space c = false -> split_ws b (String c s) = split_ws false (String c s).
Proof. intros H. cbn [split_ws]. now rewrite H. Qed.

Lemma split_ws_run ws c s :
  all_space ws = true -> ws <> "" -> is_space c = false ->
  split_ws false (ws ++ String c s) = "" :: split_ws false (String c s).
Proof.
  intros H Hne Hc. destruct ws as [|w ws]; [congruence|].
  simpl in H. apply andb_true_iff in H as [Hw Hws].
  cbn [append]. cbn [split_ws]. rewrite Hw. f_equal.
  rewrite split_ws_in_run by exact Hws. now apply split_ws_flag.
Qed.

(** [re.split] of a key, whitespace and a value: the two tokens. *)
Lemma re_split_two_tokens key ws value :
  no_space key = true -> all_space ws = true -> ws <> "" ->
  no_space value = true -> value <> "" ->
  re_split_ws (key ++ ws ++ value) = [key; value].
Proof.
  intros Hk Hw Nw Hv Nv. unfold re_split_ws.
  rewrite split_ws_token by exact Hk.
  destruct value as [|c v]; [congruence|].
  pose proof Hv as Hv'. simpl in Hv'. apply andb_true_iff in Hv' as [Hc _].
  apply negb_true_iff in Hc.
  rewrite split_ws_run by assumption.
  rewrite append_nil_r. f_equal.
  rewrite <- (append_nil_r (String c v)) at 1.
  rewrite split_ws_token by exact Hv. cbn [split_ws].
  now rewrite append_nil_r.
Qed.

Lemma match_lit_some lit : forall s r, match_lit lit s = Some r -> s = (lit ++ r)%string.
Proof.
  induction lit as [|a lit IH]; intros s r; simpl.
  - now intros [= ->].
  - destruct s as [|b s]; [discriminate|].
    destruct (Ascii.eqb_spec a b) as [->|]; [|discriminate].
    intros H. now rewrite (IH _ _ H).
Qed.

Lemma take_digits_eq s : forall d r, take_digits s = (d, r) -> s = (d ++ r)%string.
Proof.
  induction s as [|c s IH]; intros d r; simpl.
  - now intros [= <- <-].
  - destruct (is_digit c); [|now intros [= <- <-]].
    destruct (take_digits s) as [d' r'] eqn:E. intros [= <- <-].
    simpl. now rewrite (IH _ _ eq_refl).
Qed.

Lemma first_space_unique a : forall b c1 r1 c2 r2,
  no_space a = true -> no_space b = true ->
  is_space c1 = true -> is_space c2 = true ->
  (a ++ String c1 r1)%string = (b ++ String c2 r2)%string ->
  a = b /\ r1 = r2.
Proof.
  induction a as [|x a IH]; intros b c1 r1 c2 r2 Ha Hb H1 H2 E.
  - destruct b as [|y b]; simpl in E.
    + injection E as _ ->. now split.
    + injection E as -> _. simpl in Hb. now rewrite H1 in Hb.
  - destruct b as [|y b]; simpl in E.
    + injection E as -> _. simpl in Ha. now rewrite H2 in Ha.
    + injection E as -> E. simpl in Ha, Hb.
      apply andb_true_iff in Ha as [_ Ha]. apply andb_true_iff in Hb as [_ Hb].
      destruct (IH _ _ _ _ _ Ha Hb H1 H2 E) as [-> ->]. now split.
Qed.

(** The summary pattern needs three tokens at least: it never matches a
    key and a value. *)
Lemma re_match_two_tokens key ws value :
  no_space key = true -> all_space ws = true -> ws <> "" ->
  no_space value = true ->
  re_match_norefs (key ++ ws ++ value) = None.
Proof.
  intros Hk Hw Nw Hv. unfold re_match_norefs.
  destruct (match_lit "buffer_migrate_folio_norefs:" (key ++ ws ++ value)) as [s1|] eqn:E1;
    [|reflexivity].
  cbn [obind]. apply match_lit_some in E1.
  destruct (match_spaces s1) as [s2|] eqn:E2; [|reflexivity]. cbn [obind].
  unfold match_spaces in E2. destruct s1 as [|c r]; [discriminate|].
  destruct (is_space c) eqn:Hc; [|discriminate]. injection E2 as <-.
  destruct ws as [|w ws]; [congruence|].
  simpl in Hw. apply andb_true_iff in Hw as [Hw Hws].
  destruct (first_space_unique key "buffer_migrate_folio_norefs:" w (ws ++ value) c r
              Hk eq_refl Hw Hc E1) as [_ <-].
  rewrite lstrip_spaces, lstrip_no_space by assumption.
  destruct (match_digits value) as [[g1 s3]|] eqn:E3; [|reflexivity]. cbn [obind].
  destruct (match_lit "% success" s3) as [s4|] eqn:E4; [|reflexivity].
  exfalso. apply match_lit_some in E4.
  unfold match_digits in E3. destruct (take_digits value) as [d r'] eqn:Et.
  apply take_digits_eq in Et. destruct d; [discriminate|]. injection E3 as <- <-.
  subst. rewrite !no_space_app in Hv. simpl in Hv.
  rewrite !andb_false_r in Hv. discriminate.
Qed.

(** The step of the parser on a key and a value. *)
Lemma parse_sample_line (stats : stats_t) lead key ws value trail :
  all_space lead = true -> all_space trail = true ->
  all_space ws = true -> ws <> "" ->
  no_space key = true -> key <> "" ->
  no_space value = true -> value <> "" ->
  startswith key "[" = false ->
  startswith (key ++ ws ++ value) "Success ratios:" = false ->
  parse_line stats (sample_line lead key ws value trail)
  = match py_int value with
    | Some v => Some (setdefault_append key v stats)
    | None => None
    end.
Proof.
  intros Hl Ht Hw Nw Hk Nk Hv Nv Hb Hs. unfold parse_line.
  rewrite strip_sample_line by assumption.
  assert (E1 : is_empty (key ++ ws ++ value) = false)
    by (destruct key; [congruence | reflexivity]).
  assert (E2 : startswith (key ++ ws ++ value) "[" = false).
  { destruct key as [|c k]; [congruence|]. unfold startswith in *.
    cbn [prefix append] in Hb |- *.
    destruct (ascii_dec "[" c); [now destruct k | reflexivity]. }
  rewrite E1, E2. cbn [orb].
  rewrite re_match_two_tokens, Hs, re_split_two_tokens by assumption.
  rewrite strip_no_space by exact Hk.
  destruct (py_int value); reflexivity.
Qed.

(** ** The parser, line by line *)

Lemma file_lines_line line rest :
  no_newline line = true ->
  file_lines (line ++ String "010" rest) = line :: file_lines rest.
Proof.
  induction line as [|c l IH]; intros H; [reflexivity|].
  unfold no_newline in H. cbn [has_char] in H.
  rewrite !negb_orb in H. apply andb_true_iff in H as [H1 H2].
  apply andb_true_iff in H1 as [Hc1 Hl1]. apply andb_true_iff in H2 as [Hc2 Hl2].
  apply negb_true_iff in Hc1, Hc2.
  cbn [append file_lines]. rewrite Hc1, Hc2.
  rewrite IH; [reflexivity|]. unfold no_newline. now rewrite Hl1, Hl2.
Qed.

Lemma file_lines_unlines lines :
  Forall (fun l => no_newline l = true) lines ->
  file_lines (unlines lines) = lines ++ [""].
Proof.
  induction 1 as [|l ls Hl _ IH]; [reflexivity|].
  cbn [unlines]. rewrite file_lines_line by exact Hl. now rewrite IH.
Qed.

Lemma parse_lines_app l1 : forall stats l2,
  parse_lines stats (l1 ++ l2)
  = match parse_lines stats l1 with
    | Some stats' => parse_lines stats' l2
    | None => None
    end.
Proof.
  induction l1 as [|l l1 IH]; intros stats l2; [reflexivity|].
  cbn [app parse_lines]. destruct (parse_line stats l); cbn [obind]; auto.
Qed.

Lemma startswith_app p s : startswith (p ++ s) p = true.
Proof.
  unfold startswith. induction p as [|a p IH]; cbn [prefix append];
    [now destruct s|].
  destruct (ascii_dec a a); [exact IH | congruence].
Qed.

Lemma parse_line_skipped stats raw :
  skipped_line raw -> parse_line stats raw = Some stats.
Proof.
  intros [H | [(lead & rest & Hl & ->) | (lead & rest & Hl & ->)]]; unfold parse_line.
  - now rewrite strip_all_space.
  - unfold strip. rewrite lstrip_spaces by exact Hl.
    change ("[" ++ rest)%string with (String "[" rest).
    rewrite lstrip_nonspace, rstrip_nonspace by reflexivity.
    change (String "[" (rstrip rest)) with ("[" ++ rstrip rest)%string.
    rewrite startswith_app. reflexivity.
  - unfold strip. rewrite lstrip_spaces by exact Hl.
    change ("Success ratios:" ++ rest)%string
      with (String "S" ("uccess ratios" ++ String ":" rest)).
    rewrite lstrip_nonspace by reflexivity.
    change (String "S" ("uccess ratios" ++ String ":" rest))
      with ("Success ratios" ++ String ":" rest)%string.
    rewrite rstrip_app by reflexivity.
    rewrite rstrip_nonspace by reflexivity.
    change ("Success ratios" ++ String ":" (rstrip rest))%string
      with ("Success ratios:" ++ rstrip rest)%string.
    rewrite startswith_app.
    change ("Success ratios:" ++ rstrip rest)%string
      with (String "S" ("uccess ratios:" ++ rstrip rest)).
    reflexivity.
Qed.

(** X1: a line made of a key and a value (whitespace around and between
    them) that is neither a header nor a [Success ratios:] line appends
    [int(value)] to the series of the key, creating it if need be; if the
    value is not an integer literal the parser raises. *)
Theorem sample_line_appends_or_raises :
  forall (stats : stats_t) (lead key ws value trail : string),
    all_space lead = true -> all_space trail = true ->
    all_space ws = true -> ws <> "" ->
    no_space key = true -> key <> "" ->
    no_space value = true -> value <> "" ->
    startswith key "[" = false ->
    startswith (key ++ ws ++ value) "Success ratios:" = false ->
    (forall v, py_int value = Some v ->
               parse_line stats (sample_line lead key ws value trail)
               = Some (setdefault_append key v stats))
    /\ (py_int value = None ->
        parse_line stats (sample_line lead key ws value trail) = None).
Proof.
  intros stats lead key ws value trail Hl Ht Hw Nw Hk Nk Hv Nv Hb Hs.
  rewrite parse_sample_line by assumption.
  split; [now intros v -> | now intros ->].
Qed.

Lemma sample_line_appends_or_raises_witness :
  parse_line [("fails", [7%Z])] "  fails   12  "
  = Some [("fails", [7%Z; 12%Z])]
  /\ parse_line [("fails", [7%Z])] "fails 1.5" = None.
Proof.
  split.
  - apply (proj1 (sample_line_appends_or_raises [("fails", [7%Z])]
                    "  " "fails" "   " "12" "  "
                    eq_refl eq_refl eq_refl ltac:(discriminate) eq_refl
                    ltac:(discriminate) eq_refl ltac:(discriminate)
                    eq_refl eq_refl) 12%Z eq_refl).
  - apply (proj2 (sample_line_appends_or_raises [("fails", [7%Z])]
                    "" "fails" " " "1.5" ""
                    eq_refl eq_refl eq_refl ltac:(discriminate) eq_refl
                    ltac:(discriminate) eq_refl ltac:(discriminate)
                    eq_refl eq_refl) eq_refl).
Defined.

(** X2: a blank line, a bracketed header or a [Success ratios:] line can
    be put anywhere in a file without changing what is parsed. *)
Theorem skipped_line_anywhere :
  forall (before after : list string) (noise : string),
    Forall (fun l => no_newline l = true) (before ++ noise :: after) ->
    skipped_line noise ->
    parse_stats_file (unlines (before ++ noise :: after))
    = parse_stats_file (unlines (before ++ after)).
Proof.
  intros before after noise Hn Hs. unfold parse_stats_file.
  assert (Hn' : Forall (fun l => no_newline l = true) (before ++ after)).
  { apply Forall_app in Hn as [H1 H2]. inversion H2; subst.
    apply Forall_app. now split. }
  rewrite !file_lines_unlines by assumption.
  rewrite <- !app_assoc, !parse_lines_app.
  destruct (parse_lines [] before) as [stats|]; [|reflexivity].
  cbn [app parse_lines]. now rewrite parse_line_skipped.
Qed.

Lemma skipped_line_anywhere_witness :
  parse_stats_file (unlines ["success 5"; "[run 2]"; "fails 3"])
  = parse_stats_file (unlines ["success 5"; "fails 3"]).
Proof.
  apply (skipped_line_anywhere ["success 5"] ["fails 3"] "[run 2]").
  - repeat constructor.
  - right. left. exists "", "run 2]". split; reflexivity.
Defined.

(** X3: one key-and-value line whose value is not an integer literal makes
    the parsing of the whole file fail, wherever the line is: no partial
    result is returned. *)
Theorem bad_number_anywhere_is_fatal :
  forall (before after : list string) (lead key ws value trail : string),
    Forall (fun l => no_newline l = true)
           (before ++ sample_line lead key ws value trail :: after) ->
    all_space lead = true -> all_space trail = true ->
    all_space ws = true -> ws <> "" ->
    no_space key = true -> key <> "" ->
    no_space value = true -> value <> "" ->
    startswith key "[" = false ->
    startswith (key ++ ws ++ value) "Success ratios:" = false ->
    py_int value = None ->
    parse_stats_file (unlines (before ++ sample_line lead key ws value trail :: after))
    = None.
Proof.
  intros before after lead key ws value trail Hn Hl Ht Hw Nw Hk Nk Hv Nv Hb Hs Hi.
  unfold parse_stats_file. rewrite file_lines_unlines by exact Hn.
  rewrite <- app_assoc, parse_lines_app.
  destruct (parse_lines [] before) as [stats|]; [|reflexivity].
  cbn [app parse_lines]. rewrite parse_sample_line by assumption.
  now rewrite Hi.
Qed.

Lemma bad_number_anywhere_is_fatal_witness :
  parse_stats_file (unlines ["success 5"; "fails 3x"; "invalid 1"]) = None.
Proof.
  apply (bad_number_anywhere_is_fatal ["success 5"] ["invalid 1"]
           "" "fails" " " "3x" "");
    try reflexivity; try discriminate.
  repeat constructor.
Defined.

Lemma dict_get_setdefault_append k v (d : stats_t) k' :
  dict_get (setdefault_append k v d) k' []
  = dict_get d k' [] ++ (if String.eqb k k' then [v] else []).
Proof.
  induction d as [|[k0 l] d IH]; cbn [setdefault_append dict_get].
  - reflexivity.
  - destruct (String.eqb_spec k0 k) as [->|Ne]; cbn [dict_get].
    + destruct (String.eqb k k'); [reflexivity | now rewrite app_nil_r].
    + destruct (String.eqb_spec k0 k') as [->|Ne'].
      * destruct (String.eqb_spec k k'); [congruence | now rewrite app_nil_r].
      * exact IH.
Qed.

Lemma parse_line_samples stats raw stats' :
  parse_line stats raw = Some stats' ->
  forall metric,
    dict_get stats' metric [] = dict_get stats metric [] ++ line_samples metric raw.
Proof.
  unfold line_samples, parse_line.
  destruct (is_empty (strip raw) || startswith (strip raw) "[").
  { intros [= <-] m. now rewrite app_nil_r. }
  destruct (re_match_norefs (strip raw)) as [[[g1 g2] g3]|].
  - destruct (py_int g2) as [success|]; [|discriminate].
    destruct (py_int g3) as [total|]; [|discriminate].
    cbn [obind]. intros [= <-] m.
    rewrite !dict_get_setdefault_append. cbn [dict_get app].
    now rewrite <- app_assoc.
  - destruct (startswith (strip raw) "Success ratios:").
    { intros [= <-] m. now rewrite app_nil_r. }
    destruct (re_split_ws (strip raw)) as [|key [|value [|x parts]]];
      try (intros [= <-] m; now rewrite app_nil_r).
    destruct (py_int value) as [v|]; [|discriminate].
    cbn [obind]. intros [= <-] m.
    now rewrite !dict_get_setdefault_append.
Qed.

Lemma parse_lines_samples lines : forall stats stats',
  parse_lines stats lines = Some stats' ->
  forall metric,
    dict_get stats' metric []
    = dict_get stats metric [] ++ flat_map (line_samples metric) lines.
Proof.
  induction lines as [|l ls IH]; intros stats stats'; cbn [parse_lines flat_map].
  - intros [= <-] m. now rewrite app_nil_r.
  - destruct (parse_line stats l) as [st|] eqn:E; [|discriminate]. cbn [obind].
    intros H m. rewrite (IH _ _ H m), (parse_line_samples _ _ _ E m).
    now rewrite app_assoc.
Qed.

(** X4: in what [parse_stats_file] returns the metric names are pairwise
    distinct and no series is empty: a metric exists from its first sample
    on. *)
Theorem parsed_stats_invariant :
  forall (text : string) (stats : stats_t),
    parse_stats_file text = Some stats ->
    NoDup (keys stats)
    /\ Forall (fun series => (1 <= List.length series)%nat) (values stats).
Proof.
  intros text stats H. destruct (parse_stats_file_ok _ _ H) as [Hwf Hne].
  split; [exact Hwf|].
  eapply Forall_impl; [|exact Hne]. intros [|x l] Hl; [congruence | simpl; lia].
Qed.

Lemma parsed_stats_invariant_witness :
  exists stats,
    parse_stats_file (unlines ["success 5"; "fails 3"; "success 7"]) = Some stats
    /\ NoDup (keys stats)
    /\ Forall (fun series => (1 <= List.length series)%nat) (values stats).
Proof.
  eexists. split; [reflexivity|].
  apply (parsed_stats_invariant (unlines ["success 5"; "fails 3"; "success 7"])).
  reflexivity.
Defined.

(** X5: the series of a metric in a parsed file is the concatenation, in
    file order, of what each line contributes when parsed on its own; so a
    line never changes or reorders the samples of another line. *)
Theorem parsed_series_in_file_order :
  forall (text : string) (stats : stats_t),
    parse_stats_file text = Some stats ->
    forall metric : string,
      dict_get stats metric [] = flat_map (line_samples metric) (file_lines text).
Proof.
  intros text stats H metric.
  apply (parse_lines_samples _ _ _ H metric).
Qed.

Lemma parsed_series_in_file_order_witness :
  dict_get [("success", [5%Z; 7%Z]); ("fails", [3%Z])] "success" []
  = flat_map (line_samples "success")
             (file_lines (unlines ["success 5"; "fails 3"; "success 7"])).
Proof.
  apply (parsed_series_in_file_order
           (unlines ["success 5"; "fails 3"; "success 7"])
           [("success", [5%Z; 7%Z]); ("fails", [3%Z])]).
  reflexivity.
Defined.

(** ** truncate_all, again *)

Lemma series_lengths_truncated m (sd : dict stats_t) :
  series_lengths (map (fun '(name, stats) => (name, truncate_stats m stats)) sd)
  = map (Nat.min m) (series_lengths sd).
Proof.
  unfold series_lengths, values. rewrite map_map.
  induction sd as [|[n s] sd IH]; [reflexivity|].
  cbn [map flat_map snd]. rewrite map_app, <- IH. f_equal.
  fold (values (truncate_stats m s)). rewrite values_truncate_stats.
  fold (values s). rewrite !map_map. apply map_ext. intros v.
  apply length_firstn.
Qed.

Lemma fold_min_nat_const m r :
  Forall (fun n => n = m) r -> fold_left (py_min2 Nat.ltb) r m = m.
Proof.
  induction 1 as [|x r -> _ IH]; [reflexivity|].
  cbn [fold_left]. unfold py_min2 at 2. now rewrite Nat.ltb_irrefl.
Qed.

Lemma truncate_stats_id m (stats : stats_t) :
  Forall (fun v => List.length v = m) (values stats) -> truncate_stats m stats = stats.
Proof.
  unfold truncate_stats, values. induction stats as [|[k v] d IH]; [reflexivity|].
  cbn [map snd]. intros H. inversion H as [|? ? Hv Hd]; subst.
  rewrite IH by exact Hd. now rewrite firstn_all.
Qed.

(** X6: aligning is idempotent: the data sets [truncate_all] returns are
    returned unchanged, with the same [min_len], when aligned again. *)
Theorem truncate_all_idempotent :
  forall (stats_dicts aligned : dict stats_t) (min_len : nat),
    truncate_all stats_dicts = Some (aligned, min_len) ->
    truncate_all aligned = Some (aligned, min_len).
Proof.
  intros sd al m H.
  destruct (truncate_all_aligned _ _ _ H) as (Hne & Hal & Hin).
  unfold truncate_all in H |- *.
  destruct (series_lengths sd) as [|x r] eqn:E; [discriminate|].
  cbn [py_min obind] in H. injection H as Hmap Hm.
  destruct (fold_min_nat_spec r x) as [_ Hall]. rewrite Hm in Hall.
  assert (Hl : series_lengths al = map (fun _ => m) (x :: r)).
  { rewrite <- Hmap, Hm, series_lengths_truncated, E.
    apply map_ext_Forall. eapply Forall_impl; [|exact Hall].
    intros n Hn. cbv beta in Hn. lia. }
  rewrite Hl. cbn [map py_min obind].
  rewrite fold_min_nat_const by (apply Forall_forall; intros n Hn;
                                  apply in_map_iff in Hn as (? & <- & _); reflexivity).
  f_equal. f_equal.
  unfold aligned_at, values in Hal. rewrite Forall_map in Hal.
  clear - Hal. induction al as [|[n s] al IH]; [reflexivity|].
  inversion Hal as [|? ? Hs Hr]; subst. cbn [map]. cbn [snd] in Hs.
  rewrite truncate_stats_id by exact Hs. now rewrite IH.
Qed.

Lemma truncate_all_idempotent_witness :
  truncate_all [("A", [("success", [1%Z; 2%Z])]); ("B", [("fails", [0%Z])])]
  = Some ([("A", [("success", [1%Z])]); ("B", [("fails", [0%Z])])], 1%nat)
  /\ truncate_all [("A", [("success", [1%Z])]); ("B", [("fails", [0%Z])])]
     = Some ([("A", [("success", [1%Z])]); ("B", [("fails", [0%Z])])], 1%nat).
Proof.
  split; [reflexivity|].
  apply (truncate_all_idempotent
           [("A", [("success", [1%Z; 2%Z])]); ("B", [("fails", [0%Z])])]).
  reflexivity.
Defined.

(** ** What the charts draw *)

Lemma ranked_lines_items {V} b w m mb mw (d : dict (list V)) :
  map line_item (ranked_lines b w m mb mw d) = d.
Proof.
  destruct (ranked_lines_as_map b w m mb mw d) as (n & vmax & ->).
  rewrite map_map. rewrite <- (map_id d) at 2. apply map_ext. intros [name series].
  destruct (String.eqb name b); [reflexivity|].
  destruct (String.eqb name w); reflexivity.
Qed.

Lemma success_rate_lines_items b w m (d : dict (list Q)) : forall lines,
  success_rate_lines b w m d = Some lines -> map line_item lines = d.
Proof.
  induction d as [|[dut pct] d IH]; intros lines; cbn [success_rate_lines].
  - now intros [= <-].
  - destruct (success_rate_lines b w m d) as [lns|]; cycle 1.
    { destruct (if String.eqb dut b then _ else _); discriminate. }
    specialize (IH lns eq_refl).
    destruct (String.eqb dut b); [cbn [obind]; intros [= <-]; simpl; now rewrite IH|].
    destruct (String.eqb dut w); [cbn [obind]; intros [= <-]; simpl; now rewrite IH|].
    destruct (py_index m dut); [|discriminate].
    cbn [obind]. intros [= <-]. simpl. now rewrite IH.
Qed.

Lemma plot_success_rate_saved stats_map min_len c :
  plot_success_rate stats_map min_len = Saved c ->
  exists pct_by_dut rk,
    norefs_pct_by_dut stats_map min_len = Some pct_by_dut
    /\ success_rate_ranking pct_by_dut = Saved rk
    /\ success_rate_lines (rk_best rk) (rk_worst rk) (rk_middle rk) pct_by_dut
       = Some (ch_lines c)
    /\ ch_time c = time_axis min_len
    /\ ch_ylim c
       = Some (0, if Qltb 0 (max_pct_of pct_by_dut)
                  then max_pct_of pct_by_dut * (11 # 10) else 1)%Q.
Proof.
  unfold plot_success_rate.
  destruct (norefs_pct_by_dut stats_map min_len) as [pct|]; [|discriminate].
  destruct (success_rate_ranking pct) as [rk| |e] eqn:Er; try discriminate.
  destruct (success_rate_lines _ _ _ pct) as [lines|] eqn:E; [|discriminate].
  intros [= <-]. exists pct, rk. cbn [ch_lines ch_time ch_ylim].
  split; [reflexivity|]. split; [exact Er|]. split; [exact E|].
  split; reflexivity.
Qed.

Lemma keys_norefs_pct_by_dut stats_map min_len pct_by_dut :
  norefs_pct_by_dut stats_map min_len = Some pct_by_dut ->
  keys pct_by_dut = keys stats_map.
Proof.
  rewrite norefs_pct_by_dut_value. intros [= <-].
  unfold keys. rewrite map_map. apply map_ext. now intros [n s].
Qed.

Lemma valid_charts_items :
  (forall (d : dict (list Q)) time c,
      plot_valid_ratio d time = Saved c ->
      map line_item (ch_lines c) = d /\ ch_time c = time)
  /\ (forall (d : dict (list Z)) time c,
         plot_valid_success d time = Saved c ->
         map line_item (ch_lines c) = d /\ ch_time c = time)
  /\ (forall (d : dict (list Z)) time c,
         plot_valid_fails d time = Saved c ->
         map line_item (ch_lines c) = d /\ ch_time c = time).
Proof.
  split; [|split].
  - intros d time c. unfold plot_valid_ratio.
    destruct (ratio_ranking d); [|discriminate]. intros [= <-].
    split; [apply ranked_lines_items | reflexivity].
  - intros d time c. unfold plot_valid_success.
    destruct (success_ranking d); [|discriminate]. intros [= <-].
    split; [apply ranked_lines_items | reflexivity].
  - intros d time c. unfold plot_valid_fails.
    destruct (fails_ranking d); [|discriminate]. intros [= <-].
    split; [apply ranked_lines_items | reflexivity].
Qed.

Lemma success_rate_chart_items (stats_map : dict stats_t) min_len c :
  plot_success_rate stats_map min_len = Saved c ->
  map ln_name (ch_lines c) = keys stats_map
  /\ norefs_pct_by_dut stats_map min_len = Some (map line_item (ch_lines c))
  /\ ch_time c = time_axis min_len.
Proof.
  intros H.
  destruct (plot_success_rate_saved _ _ _ H) as (pct & rk & Hp & _ & Hl & Ht & _).
  pose proof (success_rate_lines_items _ _ _ _ _ Hl) as Hi.
  split; [|split; [now rewrite Hi | exact Ht]].
  rewrite <- (keys_norefs_pct_by_dut _ _ _ Hp), <- Hi.
  unfold keys. rewrite map_map. reflexivity.
Qed.

(** X7: every chart of the valid-only set and the success-rate chart draw
    each data set exactly once, in the order of the input mapping, with
    its own series and the shared time axis: no data set is dropped,
    duplicated or reordered by the ranking. *)
Theorem charts_draw_every_data_set_once :
  (forall (d : dict (list Q)) time c,
      plot_valid_ratio d time = Saved c ->
      map line_item (ch_lines c) = d /\ ch_time c = time)
  /\ (forall (d : dict (list Z)) time c,
         plot_valid_success d time = Saved c ->
         map line_item (ch_lines c) = d /\ ch_time c = time)
  /\ (forall (d : dict (list Z)) time c,
         plot_valid_fails d time = Saved c ->
         map line_item (ch_lines c) = d /\ ch_time c = time)
  /\ (forall (stats_map : dict stats_t) min_len c,
         plot_success_rate stats_map min_len = Saved c ->
         map ln_name (ch_lines c) = keys stats_map
         /\ norefs_pct_by_dut stats_map min_len = Some (map line_item (ch_lines c))
         /\ ch_time c = time_axis min_len).
Proof.
  destruct valid_charts_items as (Hr & Hs & Hf).
  split; [exact Hr|]. split; [exact Hs|]. split; [exact Hf|].
  intros sm n c H. now apply success_rate_chart_items.
Qed.

Lemma charts_draw_every_data_set_once_witness :
  exists c,
    plot_valid_success four_duts [] = Saved c
    /\ map line_item (ch_lines c) = four_duts.
Proof.
  eexists. split; [reflexivity|].
  apply (proj1 (proj2 charts_draw_every_data_set_once) four_duts [] _ eq_refl).
Defined.

Lemma length_time_axis min_len : List.length (time_axis min_len) = min_len.
Proof. unfold time_axis. now rewrite length_map, length_seq. Qed.

Lemma Forall_line_items {V} (P : list V -> Prop) (lines : list (line V)) d :
  map line_item lines = d ->
  Forall P (values d) -> Forall (fun l => P (ln_series l)) lines.
Proof.
  intros <-. unfold values. rewrite map_map, Forall_map. cbn [line_item snd].
  exact (fun H => H).
Qed.

Lemma pct_by_dut_of_value stats_map min_len :
  pct_by_dut_of stats_map min_len
  = Some (map (fun '(dut_name, stats) =>
                 (dut_name, map ratio_value
                              (combine (valid_success_of stats min_len)
                                       (valid_fails_of stats min_len))))
              stats_map).
Proof.
  unfold pct_by_dut_of. apply traverse_total. intros [n s].
  now rewrite valid_ratio_value.
Qed.

Lemma aligned_get min_len (stats_map : dict stats_t) name stats k :
  aligned_at min_len stats_map -> In (name, stats) stats_map ->
  List.length (dict_get stats k (zeros min_len)) = min_len.
Proof.
  intros Hal Hin. apply dict_get_length; [|apply repeat_length].
  unfold aligned_at in Hal. rewrite Forall_forall in Hal. apply Hal.
  apply in_map_iff. now exists (name, stats).
Qed.

Lemma Forall_values_map {A V} (P : V -> Prop) (f : string * A -> string * V)
      (l : list (string * A)) :
  (forall x, In x l -> P (snd (f x))) -> Forall P (values (map f l)).
Proof.
  intros H. unfold values. rewrite map_map. apply Forall_map, Forall_forall.
  exact H.
Qed.

(** X8: on aligned data every series handed to the drawing backend has as
    many points as the time axis it is drawn against, [min_len], in the
    three valid-only charts, in the success-rate chart and in the panels of
    the general chart, whether a metric is present or replaced by zeros. *)
Theorem plotted_series_match_time_axis :
  forall (stats_map : dict stats_t) (min_len : nat),
    aligned_at min_len stats_map ->
    (forall ratio success fails,
        plot_valid stats_map min_len = Some (ratio, success, fails) ->
        lengths_agree min_len ratio /\ lengths_agree min_len success
        /\ lengths_agree min_len fails)
    /\ lengths_agree min_len (plot_success_rate stats_map min_len)
    /\ Forall (fun p => List.length (pn_fails p) = min_len
                        /\ List.length (pn_success p) = min_len
                        /\ List.length (pn_invalid p) = min_len)
              (fst (plot_general stats_map min_len)).
Proof.
  intros sm n Hal. split; [|split].
  - intros r s f. unfold plot_valid. rewrite pct_by_dut_of_value. cbn [obind].
    intros [= <- <- <-].
    destruct valid_charts_items as [Hr [Hs Hf]].
    split; [|split].
    + destruct (plot_valid_ratio _ _) as [c| |] eqn:E; cbn [lengths_agree]; auto.
      destruct (Hr _ _ _ E) as [Hi ->]. split; [apply length_time_axis|].
      apply (Forall_line_items (fun v => List.length v = n) _ _ Hi).
      apply Forall_values_map. intros [name stats] Hin. cbn [snd].
      rewrite length_map, length_combine.
      unfold valid_success_of, valid_fails_of.
      rewrite !(aligned_get n sm name stats) by assumption. lia.
    + destruct (plot_valid_success _ _) as [c| |] eqn:E; cbn [lengths_agree]; auto.
      destruct (Hs _ _ _ E) as [Hi ->]. split; [apply length_time_axis|].
      apply (Forall_line_items (fun v => List.length v = n) _ _ Hi).
      apply Forall_values_map. intros [name stats] Hin. cbn [snd].
      now apply (aligned_get n sm name stats).
    + destruct (plot_valid_fails _ _) as [c| |] eqn:E; cbn [lengths_agree]; auto.
      destruct (Hf _ _ _ E) as [Hi ->]. split; [apply length_time_axis|].
      apply (Forall_line_items (fun v => List.length v = n) _ _ Hi).
      apply Forall_values_map. intros [name stats] Hin. cbn [snd].
      now apply (aligned_get n sm name stats).
  - destruct (plot_success_rate sm n) as [c| |] eqn:E; cbn [lengths_agree]; auto.
    destruct (plot_success_rate_saved _ _ _ E) as (pct & rk & Hp & _ & Hl & Ht & _).
    rewrite Ht. split; [apply length_time_axis|].
    apply (Forall_line_items (fun v => List.length v = n) _ _
             (success_rate_lines_items _ _ _ _ _ Hl)).
    rewrite norefs_pct_by_dut_value in Hp. injection Hp as <-.
    apply Forall_values_map. intros [name stats] Hin. cbn [snd].
    rewrite length_map, length_combine.
    rewrite !(aligned_get n sm name stats) by assumption. lia.
  - unfold plot_general. cbn [fst]. apply Forall_map, Forall_forall.
    intros [name stats] Hin. unfold general_panel. cbn [pn_fails pn_success pn_invalid].
    rewrite !(aligned_get n sm name stats) by assumption. auto.
Qed.

Lemma plotted_series_match_time_axis_witness :
  lengths_agree 2 (plot_success_rate
                     [("A", [("norefs_total_summary", [10%Z; 20%Z])]); ("B", [])] 2).
Proof.
  apply (plotted_series_match_time_axis
           [("A", [("norefs_total_summary", [10%Z; 20%Z])]); ("B", [])] 2).
  repeat constructor.
Defined.

(** ** Layers and gradient *)

Lemma py_index_lt l x : forall i, py_index l x = Some i -> (i < List.length l)%nat.
Proof.
  induction l as [|y l IH]; intros i; simpl; [discriminate|].
  destruct (String.eqb y x); [intros [= <-]; lia|].
  destruct (py_index l x) as [j|]; [|discriminate].
  intros [= <-]. specialize (IH j eq_refl). lia.
Qed.

Lemma guarded_index_lt m dut : (guarded_index m dut < Nat.max 1 (List.length m))%nat.
Proof.
  unfold guarded_index.
  destruct (negb (Nat.eqb (List.length m) 0) && name_in dut m); [|lia].
  destruct (py_index m dut) as [i|] eqn:E; [|lia].
  apply py_index_lt in E. lia.
Qed.

Lemma length_slice_1_m1 {A} (l : list A) :
  List.length (slice_1_m1 l) = (List.length l - 2)%nat.
Proof.
  unfold slice_1_m1. destruct l as [|x l]; [reflexivity|]. cbn [tl].
  destruct l as [|y l]; [reflexivity|].
  destruct (exists_last (l:=y :: l)) as (l' & a & E); [discriminate|].
  rewrite E, removelast_last. cbn [List.length]. rewrite length_app. simpl. lia.
Qed.

Lemma length_guarded_middle {V} (sorted_duts : list (string * V)) :
  (List.length (guarded_middle sorted_duts) <= List.length sorted_duts)%nat.
Proof.
  unfold guarded_middle. destruct (2 <? List.length sorted_duts)%nat; [|simpl; lia].
  rewrite length_map, length_slice_1_m1. lia.
Qed.

Lemma ranked_lines_layered {V} b w m mb mw (d : dict (list V)) :
  (List.length m <= List.length d)%nat ->
  Forall (layered (List.length d)) (ranked_lines b w m mb mw d).
Proof.
  intros Hm. unfold ranked_lines. apply Forall_map, Forall_forall.
  intros [name series] Hin.
  assert (Hn : (1 <= List.length d)%nat) by (destruct d; [destruct Hin | simpl; lia]).
  destruct (String.eqb name b); [now split|].
  destruct (String.eqb name w); [now split|].
  unfold layered. cbn [ln_colour ln_zorder ln_width].
  pose proof (guarded_index_lt m name). repeat split; lia.
Qed.

Lemma length_guarded_finals {V} (zero : V) d :
  List.length (guarded_finals zero d) = List.length d.
Proof. unfold guarded_finals. apply length_map. Qed.

(** X9: in each valid-only chart of [n] data sets the best line lies on
    layer [n + 1], the worst on layer [n], and every middle line on the
    layer of its gradient index, which is below [n] and within the range
    the colours are normalised over; best and worst are drawn with the
    heavier line.  So a middle line never covers the best or the worst. *)
Theorem valid_chart_layers :
  (forall (d : dict (list Q)) time c,
      plot_valid_ratio d time = Saved c ->
      Forall (layered (List.length d)) (ch_lines c))
  /\ (forall (d : dict (list Z)) time c,
         plot_valid_success d time = Saved c ->
         Forall (layered (List.length d)) (ch_lines c))
  /\ (forall (d : dict (list Z)) time c,
         plot_valid_fails d time = Saved c ->
         Forall (layered (List.length d)) (ch_lines c)).
Proof.
  split; [|split].
  - intros d time c. unfold plot_valid_ratio, ratio_ranking.
    destruct (sorted_by_value Qltb (guarded_finals 0%Q d)) as [|first rest] eqn:E;
      [discriminate|].
    rewrite py_last_cons. intros [= <-]. cbn [ch_lines rk_best rk_worst rk_middle].
    apply ranked_lines_layered.
    rewrite <- (length_guarded_finals 0%Q d), <- (sorted_by_value_length Qltb), E.
    apply length_guarded_middle.
  - intros d time c. unfold plot_valid_success, success_ranking.
    destruct (sorted_by_value Z.ltb (guarded_finals 0%Z d)) as [|first rest] eqn:E;
      [discriminate|].
    rewrite py_last_cons. intros [= <-]. cbn [ch_lines rk_best rk_worst rk_middle].
    apply ranked_lines_layered.
    rewrite <- (length_guarded_finals 0%Z d), <- (sorted_by_value_length Z.ltb), E.
    apply length_guarded_middle.
  - intros d time c. unfold plot_valid_fails, fails_ranking.
    destruct (sorted_by_value Z.ltb (guarded_finals 0%Z d)) as [|first rest] eqn:E;
      [discriminate|].
    rewrite py_last_cons. intros [= <-]. cbn [ch_lines rk_best rk_worst rk_middle].
    apply ranked_lines_layered.
    rewrite <- (length_guarded_finals 0%Z d), <- (sorted_by_value_length Z.ltb), E.
    apply length_guarded_middle.
Qed.

Lemma valid_chart_layers_witness :
  exists c,
    plot_valid_fails four_duts [] = Saved c /\ Forall (layered 4) (ch_lines c).
Proof.
  eexists. split; [reflexivity|].
  apply (proj2 (proj2 valid_chart_layers) four_duts [] _ eq_refl).
Defined.

Lemma success_rate_lines_layered b w m (d : dict (list Q)) : forall lines,
  success_rate_lines b w m d = Some lines -> Forall layered_pct lines.
Proof.
  induction d as [|[dut pct] d IH]; intros lines; cbn [success_rate_lines].
  - intros [= <-]. constructor.
  - destruct (success_rate_lines b w m d) as [lns|]; cycle 1.
    { destruct (if String.eqb dut b then _ else _); discriminate. }
    specialize (IH lns eq_refl).
    destruct (String.eqb dut b);
      [cbn [obind]; intros [= <-]; constructor; [now split | exact IH]|].
    destruct (String.eqb dut w);
      [cbn [obind]; intros [= <-]; constructor; [now split | exact IH]|].
    destruct (py_index m dut) as [i|] eqn:E; [|discriminate].
    cbn [obind]. intros [= <-]. constructor; [|exact IH].
    apply py_index_lt in E. unfold layered_pct. cbn [ln_width ln_colour ln_zorder].
    repeat split; lia.
Qed.

(** X10: in the success-rate chart the best line lies on layer 3, the
    worst on layer 2 and every middle line on layer 1, all with the same
    line width; the grey level of a middle line is strictly inside the
    range the greys are normalised over, so it is never the lightest nor
    the darkest grey. *)
Theorem success_rate_chart_layers :
  forall (stats_map : dict stats_t) (min_len : nat) (c : chart Q),
    plot_success_rate stats_map min_len = Saved c ->
    Forall layered_pct (ch_lines c).
Proof.
  intros sm n c H.
  destruct (plot_success_rate_saved _ _ _ H) as (pct & rk & _ & _ & Hl & _).
  exact (success_rate_lines_layered _ _ _ _ _ Hl).
Qed.

Lemma success_rate_chart_layers_witness :
  exists c,
    plot_success_rate
      [("A", [("norefs_success_summary", [1%Z]); ("norefs_total_summary", [4%Z])]);
       ("B", [("norefs_success_summary", [2%Z]); ("norefs_total_summary", [4%Z])]);
       ("C", [("norefs_success_summary", [3%Z]); ("norefs_total_summary", [4%Z])])] 1
    = Saved c
    /\ Forall layered_pct (ch_lines c).
Proof.
  eexists. split; [reflexivity|].
  apply (success_rate_chart_layers
           [("A", [("norefs_success_summary", [1%Z]); ("norefs_total_summary", [4%Z])]);
            ("B", [("norefs_success_summary", [2%Z]); ("norefs_total_summary", [4%Z])]);
            ("C", [("norefs_success_summary", [3%Z]); ("norefs_total_summary", [4%Z])])]
           1).
  reflexivity.
Defined.

Lemma py_index_nth l x : forall i, py_index l x = Some i -> nth_error l i = Some x.
Proof.
  induction l as [|y l IH]; intros i; simpl; [discriminate|].
  destruct (String.eqb_spec y x) as [->|Ne]; [now intros [= <-]|].
  destruct (py_index l x) as [j|]; [|discriminate].
  intros [= <-]. now apply IH.
Qed.

Lemma name_in_In x l : name_in x l = true <-> In x l.
Proof.
  unfold name_in. rewrite existsb_exists. split.
  - intros (y & Hy & E). apply String.eqb_eq in E. now subst.
  - intros H. exists x. split; [exact H | apply String.eqb_refl].
Qed.

Lemma nth_error_removelast {A} (l : list A) : forall i x,
  nth_error (removelast l) i = Some x -> nth_error l i = Some x.
Proof.
  induction l as [|y l IH]; intros i x; [now destruct i|].
  destruct l as [|z l]; [now destruct i|].
  change (removelast (y :: z :: l)) with (y :: removelast (z :: l)).
  destruct i as [|i]; [exact (fun H => H)|]. cbn [nth_error]. apply IH.
Qed.

Lemma nth_error_slice_1_m1 {A} (l : list A) i x :
  nth_error (slice_1_m1 l) i = Some x -> nth_error l (S i) = Some x.
Proof.
  unfold slice_1_m1. intros H. apply nth_error_removelast in H.
  destruct l; [now destruct i | exact H].
Qed.

Section MiddleRank.
Context {V : Type}.

Lemma middle_index_is_position (sorted_duts : list (string * V)) first rest name :
  sorted_duts = first :: rest ->
  In name (map fst sorted_duts) ->
  name <> fst first -> name <> fst (last sorted_duts first) ->
  exists v,
    nth_error sorted_duts (S (guarded_index (guarded_middle sorted_duts) name))
    = Some (name, v).
Proof.
  intros Es Hin H1 H2.
  apply in_map_iff in Hin as (x & Hx & Hin).
  assert (Hsl : In x (slice_1_m1 sorted_duts)).
  { rewrite Es in *. apply in_slice_1_m1; [exact Hin | |]; intros ->; congruence. }
  assert (Hlen : (2 <? List.length sorted_duts)%nat = true).
  { apply Nat.ltb_lt. pose proof (length_slice_1_m1 sorted_duts) as L.
    destruct (slice_1_m1 sorted_duts); [destruct Hsl | simpl in L; lia]. }
  unfold guarded_middle. rewrite Hlen.
  assert (Hm : In name (map fst (slice_1_m1 sorted_duts))).
  { apply in_map_iff. now exists x. }
  destruct (py_index_in _ _ Hm) as [i Hi].
  unfold guarded_index.
  rewrite (proj2 (name_in_In _ _) Hm), Hi.
  assert (Hne : Nat.eqb (List.length (map fst (slice_1_m1 sorted_duts))) 0 = false).
  { apply Nat.eqb_neq. destruct (map fst (slice_1_m1 sorted_duts));
      [destruct Hm | discriminate]. }
  rewrite Hne. cbn [negb andb].
  apply py_index_nth in Hi.
  destruct (nth_error (slice_1_m1 sorted_duts) i) as [y|] eqn:Ey.
  - rewrite (map_nth_error fst _ _ Ey) in Hi. injection Hi as Hy.
    exists (snd y). rewrite (nth_error_slice_1_m1 _ _ _ Ey).
    now rewrite <- Hy, <- surjective_pairing.
  - exfalso. apply nth_error_None in Ey.
    assert (nth_error (map fst (slice_1_m1 sorted_duts)) i <> None) by congruence.
    apply nth_error_Some in H. rewrite length_map in H. lia.
Qed.

Lemma ranked_lines_by_position b w mb mw (d : dict (list V))
      (sorted_duts : list (string * V)) first rest :
  sorted_duts = first :: rest ->
  incl (keys d) (map fst sorted_duts) ->
  (b = fst first /\ w = fst (last sorted_duts first)
   \/ w = fst first /\ b = fst (last sorted_duts first)) ->
  Forall (ranked_by_position sorted_duts)
         (ranked_lines b w (guarded_middle sorted_duts) mb mw d).
Proof.
  intros Es Hincl Hbw. unfold ranked_lines. apply Forall_map, Forall_forall.
  intros [name series] Hin.
  destruct (String.eqb_spec name b) as [Eb|Nb]; [exact I|].
  destruct (String.eqb_spec name w) as [Ew|Nw]; [exact I|].
  unfold ranked_by_position. cbn [ln_colour ln_name].
  apply (middle_index_is_position sorted_duts first rest name Es).
  - apply Hincl. apply in_map_iff. now exists (name, series).
  - destruct Hbw as [[-> _]|[-> _]]; assumption.
  - destruct Hbw as [[_ ->]|[_ ->]]; assumption.
Qed.
End MiddleRank.

Lemma keys_incl_sorted {V} (ltb : V -> V -> bool) (zero : V) (d : dict (list V)) :
  incl (keys d) (map fst (sorted_by_value ltb (guarded_finals zero d))).
Proof.
  rewrite <- (keys_guarded_finals zero d). intros k Hk.
  eapply Permutation_in; [|exact Hk].
  apply Permutation_map, Permutation_sym, sorted_by_value_perm.
Qed.

(** X11: in each valid-only chart the gradient index of a middle line is
    the position of its data set in the ascending order of the finals,
    counted after the lowest one: colours follow the rank by final value,
    not the order of the input, and the fallback index is never used for
    want of a rank. *)
Theorem gradient_index_is_rank :
  (forall (d : dict (list Q)) time c,
      plot_valid_ratio d time = Saved c ->
      Forall (ranked_by_position (sorted_by_value Qltb (guarded_finals 0%Q d)))
             (ch_lines c))
  /\ (forall (d : dict (list Z)) time c,
         plot_valid_success d time = Saved c ->
         Forall (ranked_by_position (sorted_by_value Z.ltb (guarded_finals 0%Z d)))
                (ch_lines c))
  /\ (forall (d : dict (list Z)) time c,
         plot_valid_fails d time = Saved c ->
         Forall (ranked_by_position (sorted_by_value Z.ltb (guarded_finals 0%Z d)))
                (ch_lines c)).
Proof.
  split; [|split].
  - intros d time c. unfold plot_valid_ratio, ratio_ranking.
    pose proof (keys_incl_sorted Qltb 0%Q d) as Hincl.
    destruct (sorted_by_value Qltb (guarded_finals 0%Q d)) as [|first rest] eqn:E;
      [discriminate|].
    rewrite py_last_cons. intros [= <-]. cbn [ch_lines rk_best rk_worst rk_middle].
    apply (ranked_lines_by_position _ _ _ _ _ _ first rest eq_refl Hincl). now right.
  - intros d time c. unfold plot_valid_success, success_ranking.
    pose proof (keys_incl_sorted Z.ltb 0%Z d) as Hincl.
    destruct (sorted_by_value Z.ltb (guarded_finals 0%Z d)) as [|first rest] eqn:E;
      [discriminate|].
    rewrite py_last_cons. intros [= <-]. cbn [ch_lines rk_best rk_worst rk_middle].
    apply (ranked_lines_by_position _ _ _ _ _ _ first rest eq_refl Hincl). now right.
  - intros d time c. unfold plot_valid_fails, fails_ranking.
    pose proof (keys_incl_sorted Z.ltb 0%Z d) as Hincl.
    destruct (sorted_by_value Z.ltb (guarded_finals 0%Z d)) as [|first rest] eqn:E;
      [discriminate|].
    rewrite py_last_cons. intros [= <-]. cbn [ch_lines rk_best rk_worst rk_middle].
    apply (ranked_lines_by_position _ _ _ _ _ _ first rest eq_refl Hincl). now left.
Qed.

Lemma gradient_index_is_rank_witness :
  exists c,
    plot_valid_success [("p", [3%Z]); ("q", [1%Z]); ("r", [4%Z]); ("s", [2%Z])] [] = Saved c
    /\ Forall (ranked_by_position [("q", 1%Z); ("s", 2%Z); ("p", 3%Z); ("r", 4%Z)])
              (ch_lines c).
Proof.
  eexists. split; [reflexivity|].
  apply (proj1 (proj2 gradient_index_is_rank)
           [("p", [3%Z]); ("q", [1%Z]); ("r", [4%Z]); ("s", [2%Z])] [] _ eq_refl).
Defined.

(** ** Axis limits that hold every value *)





Lemma py_max2_Zmax a b : py_max2 Z.ltb a b = Z.max a b.
Proof. unfold py_max2. destruct (Z.ltb_spec a b); lia. Qed.

Lemma fold_max_Z_ge r : forall x,
  (x <= fold_left (py_max2 Z.ltb) r x)%Z
  /\ Forall (fun v => v <= fold_left (py_max2 Z.ltb) r x)%Z r.
Proof.
  induction r as [|y r IH]; intros x; cbn [fold_left]; [split; [lia | constructor]|].
  destruct (IH (py_max2 Z.ltb x y)) as [H1 H2]. rewrite py_max2_Zmax in *.
  split; [lia|]. constructor; [lia | exact H2].
Qed.

Lemma max_or_zero_upper (l : list Z) :
  Forall (fun v => v <= max_or_zero l)%Z l.
Proof.
  unfold max_or_zero. destruct l as [|x r]; cbn [py_max]; [constructor|].
  destruct (fold_max_Z_ge r x) as [H1 H2]. constructor; assumption.
Qed.

Lemma general_ymax_upper (stats_map : dict stats_t) min_len :
  (0 <= general_ymax stats_map min_len)%Z
  /\ Forall (fun p =>
               Forall (fun v => v <= general_ymax stats_map min_len)%Z
                      (pn_fails p ++ pn_success p ++ pn_invalid p))
            (map (general_panel min_len) stats_map).
Proof.
  unfold general_ymax.
  set (step := fun (ymax : Z) (entry : string * stats_t) => _).
  assert (Hfold : forall l y,
             (y <= fold_left step l y)%Z
             /\ Forall (fun p =>
                          Forall (fun v => v <= fold_left step l y)%Z
                                 (pn_fails p ++ pn_success p ++ pn_invalid p))
                       (map (general_panel min_len) l)).
  { induction l as [|e l IH]; intros y; cbn [fold_left map];
      [split; [lia | constructor]|].
    destruct (IH (step y e)) as [H1 H2].
    assert (Hs : (y <= step y e)%Z
                 /\ Forall (fun v => v <= step y e)%Z
                      (pn_fails (general_panel min_len e)
                       ++ pn_success (general_panel min_len e)
                       ++ pn_invalid (general_panel min_len e))).
    { unfold step. cbn [fold_left]. rewrite !py_max2_Zmax.
      set (p := general_panel min_len e).
      pose proof (max_or_zero_upper (pn_fails p)) as Hf.
      pose proof (max_or_zero_upper (pn_success p)) as Hsu.
      pose proof (max_or_zero_upper (pn_invalid p)) as Hi.
      split; [lia|].
      rewrite !Forall_app. repeat split;
        (eapply Forall_impl; [|eassumption]); intros v Hv; cbv beta in Hv; lia. }
    destruct Hs as [Hs1 Hs2]. split; [lia|].
    constructor; [|exact H2].
    eapply Forall_impl; [|exact Hs2]. intros v Hv. cbv beta in Hv. lia. }
  apply Hfold.
Qed.

(** X13: the general chart gives every panel the same axis, from [0] to a
    positive upper limit that no value of a [fails], [success] or
    [invalid] series of any data set exceeds; there is one panel per data
    set, in input order. *)
Theorem general_axis_holds_every_value :
  forall (stats_map : dict stats_t) (min_len : nat),
    exists panels hi,
      plot_general stats_map min_len = (panels, (0%Q, hi))
      /\ map pn_title panels = keys stats_map
      /\ (0 < hi)%Q
      /\ Forall (fun p =>
                   Forall (fun v => inject_Z v <= hi)%Q
                          (pn_fails p ++ pn_success p ++ pn_invalid p))
                panels.
Proof.
  intros sm n. unfold plot_general. eexists _, _. split; [reflexivity|].
  split.
  { unfold keys. rewrite map_map. apply map_ext. now intros [name stats]. }
  destruct (general_ymax_upper sm n) as [H0 Hup].
  set (ymax := general_ymax sm n) in *.
  assert (Hq : forall v, (v <= ymax)%Z -> (inject_Z v <= inject_Z ymax)%Q)
    by (intros v Hv; now rewrite <- Zle_Qle).
  assert (Hq0 : forall v, (0 <= v)%Z -> (0 <= inject_Z v)%Q).
  { intros v Hv. change 0%Q with (inject_Z 0). now rewrite <- Zle_Qle. }
  assert (H0q : (0 <= inject_Z ymax)%Q) by (now apply (Hq0 ymax)).
  destruct (Z.ltb_spec 0 ymax) as [Hp|Hp].
  - assert (Hpq : (0 < inject_Z ymax)%Q).
    { change 0%Q with (inject_Z 0). now rewrite <- Zlt_Qlt. }
    split; [lra|].
    eapply Forall_impl; [|exact Hup]. intros p Hp'.
    eapply Forall_impl; [|exact Hp']. intros v Hv. cbv beta in Hv.
    apply Hq in Hv. lra.
  - split; [lra|].
    assert (ymax = 0%Z) by lia.
    eapply Forall_impl; [|exact Hup]. intros p Hp'.
    eapply Forall_impl; [|exact Hp']. intros v Hv. cbv beta in Hv.
    apply Hq in Hv. rewrite H in Hv. change (inject_Z 0) with 0%Q in Hv. lra.
Qed.

(** ** main *)









(** *** The name of a data set *)

Lemma has_char_app c s1 s2 : has_char c (s1 ++ s2) = has_char c s1 || has_char c s2.
Proof. induction s1; simpl; [reflexivity|]. now rewrite IHs1, orb_assoc. Qed.

Lemma basename_plain f : has_char "/" f = false -> basename f = f.
Proof.
  destruct f as [|c r]; [reflexivity|]. cbn [basename has_char].
  intros H. apply orb_false_iff in H as [Hc Hr]. now rewrite Hr, Hc.
Qed.

Lemma basename_dir dir f :
  has_char "/" f = false -> basename (dir ++ String "/" f) = f.
Proof.
  intros H. induction dir as [|c dir IH]; cbn [append basename].
  - now rewrite H.
  - rewrite has_char_app. cbn [has_char]. rewrite Ascii.eqb_refl, orb_true_r.
    exact IH.
Qed.

Lemma rsplit_at_none c l :
  existsb (Ascii.eqb c) l = false -> rsplit_at c l = None.
Proof.
  induction l as [|x l IH]; [reflexivity|]. cbn [existsb rsplit_at].
  intros H. apply orb_false_iff in H as [Hx Hl]. rewrite (IH Hl).
  now rewrite Ascii.eqb_sym, Hx.
Qed.

Lemma rsplit_at_last c before after :
  existsb (Ascii.eqb c) after = false ->
  rsplit_at c (before ++ c :: after) = Some (before, after).
Proof.
  intros H. induction before as [|x before IH]; cbn [app rsplit_at].
  - now rewrite (rsplit_at_none _ _ H), Ascii.eqb_refl.
  - now rewrite IH.
Qed.

Lemma list_ascii_app s1 s2 :
  list_ascii_of_string (s1 ++ s2) = list_ascii_of_string s1 ++ list_ascii_of_string s2.
Proof. induction s1; simpl; congruence. Qed.

Lemma has_char_existsb c s :
  existsb (Ascii.eqb c) (list_ascii_of_string s) = has_char c s.
Proof.
  induction s as [|x s IH]; [reflexivity|]. cbn [list_ascii_of_string existsb has_char].
  now rewrite IH, Ascii.eqb_sym.
Qed.

Lemma has_non_dot_existsb s :
  existsb (fun c => negb (Ascii.eqb c ".")) (list_ascii_of_string s) = has_non_dot s.
Proof. induction s as [|x s IH]; [reflexivity|]. simpl. now rewrite IH. Qed.

Lemma splitext_root_ext stem ext :
  has_char "/" stem = false -> has_non_dot stem = true ->
  has_char "/" ext = false -> has_char "." ext = false ->
  splitext_root (stem ++ String "." ext) = stem.
Proof.
  intros Hs Hd He1 He2. unfold splitext_root.
  rewrite list_ascii_app. cbn [list_ascii_of_string].
  rewrite rsplit_at_last by (now rewrite has_char_existsb).
  rewrite has_char_existsb, He1.
  rewrite rsplit_at_none by (now rewrite has_char_existsb).
  now rewrite has_non_dot_existsb, Hd, string_of_list_ascii_of_string.
Qed.

(** X15: the name under which [main] files a data set is the file name
    without its directory and without its last extension only.  So the file
    [<dut>.stats.txt] the collector stages is the data set [<dut>.stats],
    in any directory. *)
Theorem dataset_name_drops_directory_and_last_extension :
  forall dir stem ext : string,
    has_char "/" stem = false -> has_non_dot stem = true ->
    has_char "/" ext = false -> has_char "." ext = false ->
    dataset_name (stem ++ String "." ext) = stem
    /\ dataset_name (dir ++ String "/" (stem ++ String "." ext)) = stem.
Proof.
  intros dir stem ext Hs Hd He1 He2.
  assert (Hf : has_char "/" (stem ++ String "." ext) = false).
  { rewrite has_char_app. cbn [has_char]. now rewrite Hs, He1. }
  unfold dataset_name. rewrite basename_plain, basename_dir by exact Hf.
  split; now apply splitext_root_ext.
Qed.

Lemma dataset_name_drops_directory_and_last_extension_witness :
  dataset_name "dut1.stats.txt" = "dut1.stats"
  /\ dataset_name "runs/today/dut1.stats.txt" = "dut1.stats".
Proof.
  exact (dataset_name_drops_directory_and_last_extension
           "runs/today" "dut1.stats" "txt" eq_refl eq_refl eq_refl eq_refl).
Defined.

(** *** Files with the same name *)

Lemma dict_get_set {V} (d : dict V) k v k' default :
  dict_get (dict_set d k v) k' default
  = if String.eqb k k' then v else dict_get d k' default.
Proof.
  induction d as [|[k0 v0] d IH]; cbn [dict_set dict_get]; [reflexivity|].
  destruct (String.eqb_spec k0 k) as [->|Ne]; cbn [dict_get].
  - now destruct (String.eqb k k').
  - destruct (String.eqb_spec k0 k') as [->|Ne'].
    + destruct (String.eqb_spec k k'); [congruence | reflexivity].
    + exact IH.
Qed.

Lemma keys_dict_set {V} (d : dict V) k v :
  keys (dict_set d k v) = if dict_mem d k then keys d else keys d ++ [k].
Proof.
  induction d as [|[k0 v0] d IH]; cbn [dict_set dict_mem keys map]; [reflexivity|].
  destruct (String.eqb k0 k); cbn [map fst orb]; [reflexivity|].
  fold (keys (dict_set d k v)). rewrite IH. fold (keys d).
  now destruct (dict_mem d k).
Qed.

Lemma dict_set_wf {V} (d : dict V) k v : dict_wf d -> dict_wf (dict_set d k v).
Proof.
  unfold dict_wf. rewrite keys_dict_set.
  destruct (dict_mem d k) eqn:E; [auto|]. intros H.
  apply NoDup_app; [exact H | repeat constructor; auto |].
  intros x Hx [<-|[]]. apply dict_mem_in in Hx. congruence.
Qed.

Lemma load_stats_app fs l1 : forall l2 acc,
  load_stats fs (l1 ++ l2) acc
  = match load_stats fs l1 acc with
    | inr acc' => load_stats fs l2 acc'
    | inl e => inl e
    end.
Proof.
  induction l1 as [|f l1 IH]; intros l2 acc; [reflexivity|].
  cbn [app load_stats]. destruct (fs f); [|reflexivity].
  destruct (parse_stats_file s); [apply IH | reflexivity].
Qed.

Lemma load_stats_keeps fs files name : forall acc raw,
  load_stats fs files acc = inr raw ->
  Forall (fun f => dataset_name f <> name) files ->
  dict_get raw name [] = dict_get acc name [].
Proof.
  induction files as [|f files IH]; intros acc raw; cbn [load_stats].
  - now intros [= <-].
  - destruct (fs f); [|discriminate]. destruct (parse_stats_file s); [|discriminate].
    intros H Hall. inversion Hall as [|? ? Hf Hr]; subst.
    rewrite (IH _ _ H Hr), dict_get_set.
    destruct (String.eqb_spec (dataset_name f) name); [contradiction | reflexivity].
Qed.

Lemma load_stats_wf fs files : forall acc raw,
  dict_wf acc -> load_stats fs files acc = inr raw ->
  dict_wf raw
  /\ (forall name, In name (keys raw)
                   <-> In name (keys acc) \/ In name (map dataset_name files)).
Proof.
  induction files as [|f files IH]; intros acc raw Hwf; cbn [load_stats].
  - intros [= <-]. split; [exact Hwf|]. intros name. cbn [map In]. tauto.
  - destruct (fs f); [|discriminate]. destruct (parse_stats_file s); [|discriminate].
    intros H. destruct (IH _ _ (dict_set_wf acc (dataset_name f) s0 Hwf) H) as [H1 H2].
    split; [exact H1|]. intros name. rewrite H2, keys_dict_set. cbn [map In].
    destruct (dict_mem acc (dataset_name f)) eqn:E.
    + apply dict_mem_in in E. split; [intros [?|?]; auto|].
      intros [?|[<-|?]]; auto.
    + rewrite in_app_iff. cbn [In]. tauto.
Qed.

(** X16: [main] keeps one data set per name.  When the files load, the
    names are pairwise distinct and are exactly the names of the files
    given, and under each name stands what the last file of that name
    holds: an earlier file of the same name is silently replaced. *)
Theorem last_file_of_a_name_wins :
  forall (fs : string -> option string) (earlier later : list string)
         (file : string) (stats_raw : dict stats_t),
    load_stats fs (earlier ++ file :: later) [] = inr stats_raw ->
    Forall (fun f => dataset_name f <> dataset_name file) later ->
    NoDup (keys stats_raw)
    /\ (forall name, In name (keys stats_raw)
                     <-> In name (map dataset_name (earlier ++ file :: later)))
    /\ exists text stats,
         fs file = Some text /\ parse_stats_file text = Some stats
         /\ dict_get stats_raw (dataset_name file) [] = stats.
Proof.
  intros fs earlier later file raw H Hlater.
  destruct (load_stats_wf fs _ [] raw (NoDup_nil _) H) as [Hwf Hkeys].
  split; [exact Hwf|]. split; [intros name; rewrite Hkeys; cbn [keys map In]; tauto|].
  rewrite load_stats_app in H.
  destruct (load_stats fs earlier []) as [e|acc]; [discriminate|].
  cbn [load_stats] in H.
  destruct (fs file) as [text|] eqn:Et; [|discriminate].
  destruct (parse_stats_file text) as [stats|] eqn:Ep; [|discriminate].
  exists text, stats. split; [reflexivity|]. split; [exact Ep|].
  rewrite (load_stats_keeps _ _ _ _ _ H Hlater), dict_get_set.
  now rewrite String.eqb_refl.
Qed.

Lemma last_file_of_a_name_wins_witness :
  NoDup (keys [("x", [("success", [2%Z])])])
  /\ (forall name, In name (keys [("x", [("success", [2%Z])])])
                   <-> In name (map dataset_name ["a/x.txt"; "b/x.txt"]))
  /\ exists text stats,
       (if String.eqb "b/x.txt" "a/x.txt" then Some "success 1" else Some "success 2")
       = Some text
       /\ parse_stats_file text = Some stats
       /\ dict_get [("x", [("success", [2%Z])])] (dataset_name "b/x.txt") [] = stats.
Proof.
  exact (last_file_of_a_name_wins
           (fun f => if String.eqb f "a/x.txt" then Some "success 1"
                     else Some "success 2")
           ["a/x.txt"] [] "b/x.txt" [("x", [("success", [2%Z])])]
           eq_refl (Forall_nil _)).
Defined.

(** ** collect-stats.py *)

Lemma py_file_lines_unlines lines :
  Forall (fun l => no_newline l = true) lines ->
  py_file_lines (unlines lines) = lines.
Proof.
  intros H. unfold py_file_lines. rewrite file_lines_unlines by exact H.
  now rewrite last_last, removelast_last.
Qed.

Lemma str_split_roster_line line entry :
  roster_line line entry -> str_split (strip line) = [fst entry; snd entry].
Proof.
  intros (lead & ws & trail & -> & Hl & Hw & Nw & Ht & Hg & Ng & Hd & Nd).
  rewrite strip_sample_line by assumption.
  unfold str_split. rewrite re_split_two_tokens by assumption.
  destruct (fst entry); [congruence|]. destruct (snd entry); [congruence|].
  reflexivity.
Qed.

Lemma collect_lines_roster good roster : forall rest,
  Forall2 roster_line good roster ->
  collect_lines (good ++ rest)
  = (roster_actions roster ++ fst (collect_lines rest), snd (collect_lines rest)).
Proof.
  intros rest H. induction H as [|line entry good roster Hl _ IH].
  - cbn [app roster_actions flat_map]. now destruct (collect_lines rest).
  - cbn [app collect_lines]. rewrite (str_split_roster_line _ _ Hl), IH.
    cbn [roster_actions flat_map]. now rewrite <- app_assoc.
Qed.

Lemma collect_lines_bad bad rest :
  List.length (str_split (strip bad)) <> 2%nat ->
  collect_lines (bad :: rest) = ([], Some (RosterLine bad)).
Proof.
  intros H. cbn [collect_lines].
  destruct (str_split (strip bad)) as [|a [|b [|c l]]]; try reflexivity.
  now contradiction H.
Qed.

(** X17: on a roster whose lines each name a guest and a device, the
    collector first deletes the staged files, then does for each line, in
    the order of the roster, the copy, the change of owner, the transfer and
    the report, and ends without an error. *)
Theorem collector_follows_roster :
  forall (lines : list string) (roster : list (string * string)),
    Forall2 roster_line lines roster ->
    Forall (fun l => no_newline l = true) lines ->
    collect_stats (Some (unlines lines))
    = (System "rm -f *.stats.txt" :: roster_actions roster, None).
Proof.
  intros lines roster H Hn. unfold collect_stats.
  rewrite py_file_lines_unlines by exact Hn.
  rewrite <- (app_nil_r lines), (collect_lines_roster _ _ [] H).
  cbn [collect_lines fst snd]. now rewrite app_nil_r.
Qed.

Lemma roster_line_plain guest dut :
  no_space guest = true -> guest <> "" -> no_space dut = true -> dut <> "" ->
  roster_line (guest ++ " " ++ dut) (guest, dut).
Proof.
  intros Hg Ng Hd Nd. exists "", " ", "". unfold sample_line. cbn [fst snd].
  rewrite append_nil_r. repeat split; try assumption; try reflexivity.
  discriminate.
Qed.

Lemma collector_follows_roster_witness :
  collect_stats (Some (unlines ["g1 d1"; "g2 d2"]))
  = (System "rm -f *.stats.txt" :: roster_actions [("g1", "d1"); ("g2", "d2")], None).
Proof.
  apply (collector_follows_roster ["g1 d1"; "g2 d2"] [("g1", "d1"); ("g2", "d2")]).
  - constructor; [apply (roster_line_plain "g1" "d1"); (reflexivity || discriminate)|].
    constructor; [apply (roster_line_plain "g2" "d2"); (reflexivity || discriminate)|].
    constructor.
  - repeat constructor.
Defined.

(** X18: a roster line that does not hold exactly two words stops the
    collector with an error at that line.  By then the staged files are
    deleted and the guests of the lines before it are collected; nothing is
    done for the lines after it. *)
Theorem collector_stops_at_bad_line :
  forall (good rest : list string) (bad : string) (roster : list (string * string)),
    Forall2 roster_line good roster ->
    List.length (str_split (strip bad)) <> 2%nat ->
    Forall (fun l => no_newline l = true) (good ++ bad :: rest) ->
    collect_stats (Some (unlines (good ++ bad :: rest)))
    = (System "rm -f *.stats.txt" :: roster_actions roster, Some (RosterLine bad)).
Proof.
  intros good rest bad roster H Hb Hn. unfold collect_stats.
  rewrite py_file_lines_unlines by exact Hn.
  rewrite (collect_lines_roster _ _ _ H), (collect_lines_bad _ _ Hb).
  cbn [fst snd]. now rewrite app_nil_r.
Qed.

Lemma collector_stops_at_bad_line_witness :
  collect_stats (Some (unlines ["g1 d1"; ""; "g2 d2"]))
  = (System "rm -f *.stats.txt" :: roster_actions [("g1", "d1")], Some (RosterLine "")).
Proof.
  apply (collector_stops_at_bad_line ["g1 d1"] ["g2 d2"] "" [("g1", "d1")]).
  - constructor; [apply (roster_line_plain "g1" "d1"); (reflexivity || discriminate)|].
    constructor.
  - vm_compute. discriminate.
  - repeat constructor.
Defined.

(** X19: the file the collector stages for a device is filed by [main]
    under the name of the device followed by [.stats]: only the [.txt] is
    dropped, so that is the name the charts show. *)
Theorem staged_file_data_set_name :
  forall guest dut dir : string,
    has_char "/" dut = false ->
    In (System ("scp " ++ guest ++ ":/home/kdevops/stats " ++ staged_file dut))
       (guest_actions guest dut)
    /\ dataset_name (staged_file dut) = (dut ++ ".stats")%string
    /\ dataset_name (dir ++ String "/" (staged_file dut)) = (dut ++ ".stats")%string.
Proof.
  intros guest dut dir Hd.
  split; [cbn [guest_actions In]; auto|].
  assert (E : staged_file dut = ((dut ++ ".stats") ++ String "." "txt")%string).
  { unfold staged_file. now rewrite append_assoc. }
  assert (Hs : has_char "/" (dut ++ ".stats") = false).
  { rewrite has_char_app, Hd. reflexivity. }
  assert (Hn : has_non_dot (dut ++ ".stats") = true).
  { clear. induction dut as [|c d IH]; [reflexivity|]. cbn [append has_non_dot].
    rewrite IH. apply orb_true_r. }
  assert (Hf : has_char "/" (staged_file dut) = false).
  { rewrite E, has_char_app, Hs. reflexivity. }
  unfold dataset_name. rewrite basename_plain, basename_dir by exact Hf.
  rewrite E. split; now apply splitext_root_ext.
Qed.

Lemma staged_file_data_set_name_witness :
  In (System ("scp " ++ "g1" ++ ":/home/kdevops/stats " ++ staged_file "d1"))
     (guest_actions "g1" "d1")
  /\ dataset_name (staged_file "d1") = "d1.stats"
  /\ dataset_name ("runs" ++ String "/" (staged_file "d1")) = "d1.stats".
Proof. exact (staged_file_data_set_name "g1" "d1" "runs" eq_refl). Defined.

(** ** human_format *)

Lemma digit_char_spec d :
  (0 <= d < 10)%Z ->
  is_digit (digit_char d) = true /\ digit_value (digit_char d) = d
  /\ Ascii.eqb (digit_char d) "," = false.
Proof.
  intros H.
  assert (E : (d = 0 \/ d = 1 \/ d = 2 \/ d = 3 \/ d = 4 \/ d = 5 \/ d = 6
               \/ d = 7 \/ d = 8 \/ d = 9)%Z) by lia.
  repeat (destruct E as [->|E]; [repeat split|]). subst. repeat split.
Qed.

Lemma decimal_from_acc s : forall acc,
  decimal_from acc s
  = (acc * 10 ^ Z.of_nat (String.length s) + decimal_from 0 s)%Z.
Proof.
  induction s as [|c s IH]; intros acc.
  - cbn [decimal_from String.length]. change (Z.of_nat 0) with 0%Z. lia.
  - cbn [decimal_from String.length]. rewrite (IH (10 * acc + digit_value c)%Z).
    rewrite (IH (10 * 0 + digit_value c)%Z).
    rewrite Nat2Z.inj_succ, Z.pow_succ_r by lia. lia.
Qed.

Lemma decimal_digits_from_value fuel : forall n acc,
  (0 <= n < 2 ^ Z.of_nat fuel)%Z ->
  decimal_value (decimal_digits_from fuel n acc)
  = (n * 10 ^ Z.of_nat (String.length acc) + decimal_value acc)%Z.
Proof.
  unfold decimal_value.
  induction fuel as [|fuel IH]; intros n acc H.
  - change (2 ^ Z.of_nat 0)%Z with 1%Z in H. cbn [decimal_digits_from].
    replace n with 0%Z by lia. lia.
  - cbn [decimal_digits_from].
    rewrite Nat2Z.inj_succ, Z.pow_succ_r in H by lia.
    assert (Hm : (0 <= n mod 10 < 10)%Z) by (apply Z.mod_pos_bound; lia).
    destruct (digit_char_spec _ Hm) as (_ & Hv & _).
    pose proof (Z.div_mod n 10 ltac:(lia)) as Hdm.
    destruct (Z.eqb_spec (n / 10) 0) as [E|E].
    + cbn [decimal_from]. rewrite decimal_from_acc, Hv. lia.
    + rewrite IH.
      2:{ split; [apply Z.div_pos; lia|]. apply Z.div_lt_upper_bound; lia. }
      cbn [decimal_from String.length]. rewrite (decimal_from_acc acc), Hv.
      rewrite Nat2Z.inj_succ, Z.pow_succ_r by lia. nia.
Qed.

Lemma decimal_digits_from_digits fuel : forall n acc,
  (0 <= n)%Z -> all_digits acc = true ->
  all_digits (decimal_digits_from fuel n acc) = true.
Proof.
  induction fuel as [|fuel IH]; intros n acc Hn Ha; [exact Ha|].
  cbn [decimal_digits_from].
  assert (Hm : (0 <= n mod 10 < 10)%Z) by (apply Z.mod_pos_bound; lia).
  destruct (digit_char_spec _ Hm) as (Hd & _ & _).
  assert (Ha' : all_digits (String (digit_char (n mod 10)) acc) = true).
  { cbn [all_digits]. now rewrite Hd, Ha. }
  destruct (Z.eqb (n / 10) 0); [exact Ha'|].
  apply IH; [apply Z.div_pos; lia | exact Ha'].
Qed.

Lemma decimal_digits_from_nonempty fuel : forall n acc,
  decimal_digits_from (S fuel) n acc <> "".
Proof.
  induction fuel as [|fuel IH]; intros n acc.
  - cbn [decimal_digits_from]. destruct (Z.eqb (n / 10) 0); discriminate.
  - change (decimal_digits_from (S (S fuel)) n acc)
      with (let acc' := String (digit_char (n mod 10)) acc in
            if Z.eqb (n / 10) 0 then acc'
            else decimal_digits_from (S fuel) (n / 10) acc').
    cbv zeta. destruct (Z.eqb (n / 10) 0); [discriminate | apply IH].
Qed.

Lemma decimal_digits_fuel n :
  (0 <= n)%Z -> (0 <= n < 2 ^ Z.of_nat (S (Z.to_nat (Z.log2 n))))%Z.
Proof.
  intros H. split; [exact H|].
  rewrite Nat2Z.inj_succ, Z2Nat.id by apply Z.log2_nonneg.
  destruct (Z.eq_dec n 0) as [->|Hn]; [reflexivity|].
  apply Z.log2_spec. lia.
Qed.

(** The digits [decimal_digits] writes are those of the number. *)
Lemma decimal_digits_spec n :
  (0 <= n)%Z ->
  all_digits (decimal_digits n) = true /\ decimal_digits n <> ""
  /\ decimal_value (decimal_digits n) = n.
Proof.
  intros H. unfold decimal_digits. split; [|split].
  - now apply decimal_digits_from_digits.
  - apply decimal_digits_from_nonempty.
  - rewrite decimal_digits_from_value by now apply decimal_digits_fuel.
    cbn. lia.
Qed.

Lemma all_digits_no_comma s :
  all_digits s = true ->
  forallb (fun c => negb (Ascii.eqb c ",")) (list_ascii_of_string s) = true.
Proof.
  induction s as [|c s IH]; [reflexivity|]. cbn [all_digits list_ascii_of_string forallb].
  intros H. apply andb_true_iff in H as [Hc Hs]. rewrite (IH Hs), andb_true_r.
  destruct (Ascii.eqb_spec c ","); [subst; discriminate | reflexivity].
Qed.

Lemma filter_group_rev l : forall k,
  forallb (fun c => negb (Ascii.eqb c ",")) l = true ->
  filter (fun c => negb (Ascii.eqb c ",")) (group_rev k l) = l.
Proof.
  induction l as [|c l IH]; intros k H; [reflexivity|].
  cbn [forallb] in H. apply andb_true_iff in H as [Hc Hl].
  cbn [group_rev]. destruct l as [|c2 l]; [cbn [filter]; now rewrite Hc|].
  destruct (Nat.eqb k 2); cbn [filter]; rewrite Hc.
  - cbn [Ascii.eqb Bool.eqb negb andb]. f_equal. now apply IH.
  - f_equal. now apply IH.
Qed.

Lemma forallb_rev {A} (p : A -> bool) l : forallb p (rev l) = forallb p l.
Proof.
  induction l as [|x l IH]; [reflexivity|]. cbn [rev forallb].
  rewrite forallb_app, IH. cbn [forallb]. rewrite andb_true_r. apply andb_comm.
Qed.

Lemma filter_rev {A} (p : A -> bool) l : filter p (rev l) = rev (filter p l).
Proof.
  induction l as [|x l IH]; [reflexivity|]. cbn [rev filter].
  rewrite filter_app, IH. cbn [filter]. destruct (p x); [reflexivity|].
  now rewrite app_nil_r.
Qed.

(** Without its commas, a grouped number is its digits. *)
Lemma strip_commas_with_commas ds :
  all_digits ds = true -> strip_commas (with_commas ds) = ds.
Proof.
  intros H. unfold strip_commas, with_commas.
  rewrite list_ascii_of_string_of_list_ascii, filter_rev, filter_group_rev.
  - now rewrite rev_involutive, string_of_list_ascii_of_string.
  - rewrite forallb_rev. now apply all_digits_no_comma.
Qed.

Lemma strip_commas_cons c s :
  Ascii.eqb c "," = false -> strip_commas (String c s) = String c (strip_commas s).
Proof.
  intros H. unfold strip_commas. cbn [list_ascii_of_string filter]. now rewrite H.
Qed.

Lemma py_int_negative ds :
  all_digits ds = true -> ds <> "" ->
  py_int (String "-" ds) = Some (- decimal_value ds)%Z.
Proof.
  intros H Hne. unfold py_int, strip.
  rewrite lstrip_nonspace by reflexivity.
  rewrite rstrip_nonspace by reflexivity.
  rewrite rstrip_all_nonspace by exact H.
  cbn [Ascii.eqb Bool.eqb andb]. rewrite (int_body_digits ds false 0%Z H); auto.
Qed.

(** The grouped form of any integer, read without its commas, is the
    integer. *)
Lemma format_commas_reads_back n : py_int (strip_commas (format_commas n)) = Some n.
Proof.
  unfold format_commas. destruct (Z.ltb_spec n 0) as [Hn|Hn].
  - destruct (decimal_digits_spec (- n)%Z ltac:(lia)) as (Hd & Hne & Hv).
    rewrite strip_commas_cons by reflexivity.
    rewrite strip_commas_with_commas by exact Hd.
    rewrite py_int_negative by assumption. rewrite Hv. f_equal. lia.
  - destruct (decimal_digits_spec n Hn) as (Hd & Hne & Hv).
    rewrite strip_commas_with_commas by exact Hd.
    rewrite py_int_digits by assumption. now rewrite Hv.
Qed.

(** X20: a label of [human_format] is a grouped integer followed by the
    suffix of its unit, and the integer is the number in that unit, rounded
    down: nothing but the part below the unit is lost, and no number below
    a thousand, negative ones included, loses anything. *)
Theorem human_format_reads_back :
  forall num : Z,
    exists body : string,
      human_format num = (body ++ fst (human_unit num))%string
      /\ py_int (strip_commas body) = Some (num / snd (human_unit num))%Z.
Proof.
  intros num. unfold human_format, human_unit.
  destruct (Z.leb 1000000 num); [|destruct (Z.leb 1000 num)]; cbn [fst snd].
  - eexists. split; [reflexivity | apply format_commas_reads_back].
  - eexists. split; [reflexivity | apply format_commas_reads_back].
  - exists (format_commas num). rewrite append_nil_r, Z.div_1_r.
    split; [reflexivity | apply format_commas_reads_back].
Qed.

(** X21: numbers of at least a thousand that agree down to the thousands
    get the same label: the last three digits never show, and a label is
    rounded down, not to the nearest unit. *)
Theorem human_format_drops_below_thousand :
  forall a b : Z,
    (1000 <= a)%Z -> (a / 1000 = b / 1000)%Z -> human_format a = human_format b.
Proof.
  intros a b Ha E. unfold human_format.
  pose proof (Z.div_mod a 1000 ltac:(lia)) as Da.
  pose proof (Z.div_mod b 1000 ltac:(lia)) as Db.
  pose proof (Z.mod_pos_bound a 1000 ltac:(lia)) as Ma.
  pose proof (Z.mod_pos_bound b 1000 ltac:(lia)) as Mb.
  assert (E6 : (a / 1000000 = b / 1000000)%Z).
  { change 1000000%Z with (1000 * 1000)%Z.
    rewrite <- !Z.div_div by lia. now rewrite E. }
  destruct (Z.leb_spec 1000000 a), (Z.leb_spec 1000000 b); try lia.
  - now rewrite E6.
  - destruct (Z.leb_spec 1000 a), (Z.leb_spec 1000 b); try lia. now rewrite E.
Qed.

Lemma human_format_drops_below_thousand_witness :
  human_format 1000 = human_format 1999
  /\ human_format 1999 = "1K" /\ human_format 999999 = "999K".
Proof.
  split; [apply (human_format_drops_below_thousand 1000 1999); [lia | reflexivity]|].
  split; reflexivity.
Defined.

Lemma decimal_digits_from_app fuel : forall n acc,
  decimal_digits_from fuel n acc = (decimal_digits_from fuel n "" ++ acc)%string.
Proof.
  induction fuel as [|fuel IH]; intros n acc; [reflexivity|].
  cbn [decimal_digits_from]. destruct (Z.eqb (n / 10) 0); [reflexivity|].
  rewrite (IH _ (String _ acc)), (IH _ (String _ "")).
  now rewrite append_assoc.
Qed.

Lemma decimal_digits_from_more_fuel fuel : forall n acc,
  (0 <= n < 2 ^ Z.of_nat (S fuel))%Z ->
  decimal_digits_from (S (S fuel)) n acc = decimal_digits_from (S fuel) n acc.
Proof.
  induction fuel as [|fuel IH]; intros n acc H.
  - change (2 ^ Z.of_nat 1)%Z with 2%Z in H. cbn [decimal_digits_from].
    assert (E : (n / 10 = 0)%Z) by (apply Z.div_small; lia).
    now rewrite E.
  - change (decimal_digits_from (S (S (S fuel))) n acc)
      with (let acc' := String (digit_char (n mod 10)) acc in
            if Z.eqb (n / 10) 0 then acc'
            else decimal_digits_from (S (S fuel)) (n / 10) acc').
    change (decimal_digits_from (S (S fuel)) n acc)
      with (let acc' := String (digit_char (n mod 10)) acc in
            if Z.eqb (n / 10) 0 then acc'
            else decimal_digits_from (S fuel) (n / 10) acc').
    cbv zeta. destruct (Z.eqb (n / 10) 0); [reflexivity|].
    apply IH. rewrite (Nat2Z.inj_succ (S fuel)), Z.pow_succ_r in H by lia.
    split; [apply Z.div_pos; lia|]. apply Z.div_lt_upper_bound; lia.
Qed.

Lemma decimal_digits_from_enough f1 : forall f2 n acc,
  (f1 <= f2)%nat ->
  (0 <= n < 2 ^ Z.of_nat (S f1))%Z ->
  decimal_digits_from (S f2) n acc = decimal_digits_from (S f1) n acc.
Proof.
  intros f2 n acc Hle H. induction Hle as [|f2 Hle IH]; [reflexivity|].
  rewrite decimal_digits_from_more_fuel; [exact IH|].
  split; [lia|]. destruct H as [_ H]. eapply Z.lt_le_trans; [exact H|].
  apply Z.pow_le_mono_r; lia.
Qed.

Lemma decimal_digits_from_any_fuel f1 f2 n acc :
  (0 <= n < 2 ^ Z.of_nat (S f1))%Z -> (0 <= n < 2 ^ Z.of_nat (S f2))%Z ->
  decimal_digits_from (S f1) n acc = decimal_digits_from (S f2) n acc.
Proof.
  intros H1 H2. destruct (Nat.le_ge_cases f1 f2).
  - symmetry. now apply decimal_digits_from_enough.
  - now apply decimal_digits_from_enough.
Qed.

Lemma decimal_digits_small n :
  (0 <= n < 10)%Z -> decimal_digits n = String (digit_char n) "".
Proof.
  intros H. unfold decimal_digits. cbn [decimal_digits_from].
  rewrite Z.div_small, Z.mod_small by lia. reflexivity.
Qed.

(** The digits of a number of two digits or more: those of its tenth, then
    its last digit. *)
Lemma decimal_digits_step n :
  (10 <= n)%Z ->
  decimal_digits n
  = (decimal_digits (n / 10) ++ String (digit_char (n mod 10)) "")%string.
Proof.
  intros H. unfold decimal_digits.
  pose proof (decimal_digits_fuel n ltac:(lia)) as Hf.
  assert (H10 : (0 <= n / 10)%Z) by (apply Z.div_pos; lia).
  pose proof (decimal_digits_fuel (n / 10)%Z H10) as Hf'.
  assert (Hl : (3 <= Z.log2 n)%Z).
  { change 3%Z with (Z.log2 8). apply Z.log2_le_mono. lia. }
  destruct (Z.to_nat (Z.log2 n)) as [|L] eqn:EL; [lia|].
  change (decimal_digits_from (S (S L)) n "")
    with (let acc' := String (digit_char (n mod 10)) "" in
          if Z.eqb (n / 10) 0 then acc'
          else decimal_digits_from (S L) (n / 10) acc').
  cbv zeta. destruct (Z.eqb_spec (n / 10) 0) as [E|_].
  { pose proof (Z.div_mod n 10 ltac:(lia)).
    pose proof (Z.mod_pos_bound n 10 ltac:(lia)). lia. }
  rewrite decimal_digits_from_app. f_equal.
  apply decimal_digits_from_any_fuel; [|exact Hf'].
  split; [exact H10|]. destruct Hf as [_ Hf].
  rewrite (Nat2Z.inj_succ (S L)), Z.pow_succ_r in Hf by lia.
  apply Z.div_lt_upper_bound; lia.
Qed.

Lemma string_of_list_ascii_app l1 l2 :
  string_of_list_ascii (l1 ++ l2)
  = (string_of_list_ascii l1 ++ string_of_list_ascii l2)%string.
Proof. induction l1; simpl; congruence. Qed.

(** The last three digits form a group; a comma stands before it when
    digits precede. *)
Lemma with_commas_group x a b c :
  x <> "" ->
  with_commas (x ++ String a (String b (String c "")))
  = (with_commas x ++ String "," (String a (String b (String c ""))))%string.
Proof.
  intros Hx. unfold with_commas. rewrite list_ascii_app.
  cbn [list_ascii_of_string]. rewrite rev_app_distr. cbn [rev app].
  destruct (rev (list_ascii_of_string x)) as [|y r] eqn:E.
  { apply (f_equal (@rev ascii)) in E. rewrite rev_involutive in E.
    cbn [rev] in E. destruct x; [congruence | discriminate]. }
  cbn [group_rev Nat.eqb]. cbn [rev]. rewrite <- !app_assoc. cbn [app].
  now rewrite string_of_list_ascii_app.
Qed.

Lemma with_commas_short a b c :
  with_commas (String a "") = String a ""
  /\ with_commas (String a (String b "")) = String a (String b "")
  /\ with_commas (String a (String b (String c ""))) = String a (String b (String c "")).
Proof. repeat split. Qed.

(** X22: how [human_format] groups digits.  A number below a thousand is
    written as its digits, with no comma; a larger one as the grouped form
    of its thousands, a comma, and its last three digits. *)
Theorem digits_grouped_in_threes :
  forall n : Z,
    (0 <= n)%Z ->
    ((n < 1000)%Z -> format_commas n = decimal_digits n
                     /\ human_format n = decimal_digits n)
    /\ ((1000 <= n)%Z ->
        format_commas n
        = (format_commas (n / 1000)
           ++ String "," (String (digit_char ((n / 100) mod 10))
                            (String (digit_char ((n / 10) mod 10))
                               (String (digit_char (n mod 10)) ""))))%string).
Proof.
  intros n Hn. unfold human_format, format_commas.
  destruct (Z.ltb_spec n 0) as [?|_]; [lia|]. split; intros H.
  - destruct (Z.leb_spec 1000000 n); [lia|]. destruct (Z.leb_spec 1000 n); [lia|].
    destruct (Z.ltb_spec n 0) as [?|_]; [lia|].
    assert (E : with_commas (decimal_digits n) = decimal_digits n);
      [|now rewrite E].
    destruct (Z.lt_ge_cases n 10) as [Ka|Ka].
    { rewrite decimal_digits_small by lia. reflexivity. }
    rewrite (decimal_digits_step n Ka).
    destruct (Z.lt_ge_cases (n / 10) 10) as [Kb|Kb].
    { rewrite decimal_digits_small by (split; [apply Z.div_pos|]; lia).
      reflexivity. }
    rewrite (decimal_digits_step _ Kb), decimal_digits_small.
    + reflexivity.
    + rewrite Z.div_div by lia. split; [apply Z.div_pos; lia|].
      apply Z.div_lt_upper_bound; lia.
  - assert (Ka : (10 <= n)%Z) by lia.
    assert (Kb : (10 <= n / 10)%Z) by (apply Z.div_le_lower_bound; lia).
    assert (Kc : (10 <= n / 10 / 10)%Z).
    { rewrite Z.div_div by lia. apply Z.div_le_lower_bound; lia. }
    assert (Kd : (0 <= n / 1000)%Z) by (apply Z.div_pos; lia).
    destruct (Z.ltb_spec (n / 1000) 0) as [?|_]; [lia|].
    rewrite (decimal_digits_step n Ka), (decimal_digits_step _ Kb).
    rewrite (decimal_digits_step _ Kc).
    rewrite !Z.div_div by lia. change (10 * 10 * 10)%Z with 1000%Z.
    change (10 * 10)%Z with 100%Z.
    rewrite !append_assoc. cbn [append].
    apply with_commas_group.
    apply (decimal_digits_spec _ Kd).
Qed.

Lemma digits_grouped_in_threes_witness :
  ((1234567 < 1000)%Z -> format_commas 1234567 = decimal_digits 1234567
                         /\ human_format 1234567 = decimal_digits 1234567)
  /\ ((1000 <= 1234567)%Z ->
      format_commas 1234567
      = (format_commas (1234567 / 1000)
         ++ String "," (String (digit_char ((1234567 / 100) mod 10))
                          (String (digit_char ((1234567 / 10) mod 10))
                             (String (digit_char (1234567 mod 10)) ""))))%string).
Proof. apply (digits_grouped_in_threes 1234567). lia. Defined.

(** ** Lines that are no samples *)

Lemma join_words_cons w rest :
  rest <> [] -> join_words (w :: rest) = (w ++ String " " (join_words rest))%string.
Proof. destruct rest; [congruence | reflexivity]. Qed.

Lemma join_words_shape words :
  Forall (fun w => no_space w = true /\ w <> "") words -> words <> [] ->
  exists c r, join_words words = String c r /\ is_space c = false
              /\ has_nonspace (join_words words) = true.
Proof.
  intros H Hne. destruct words as [|w rest]; [congruence|].
  inversion H as [|? ? [Hw Nw] Hr]; subst.
  destruct w as [|c w]; [congruence|].
  cbn [no_space] in Hw. apply andb_true_iff in Hw as [Hc Hw].
  apply negb_true_iff in Hc.
  destruct rest as [|w2 rest].
  - exists c, w. cbn [join_words has_nonspace]. now rewrite Hc.
  - rewrite join_words_cons by discriminate. cbn [append has_nonspace].
    eexists _, _. split; [reflexivity|]. now rewrite Hc.
Qed.

Lemma strip_join_words words :
  Forall (fun w => no_space w = true /\ w <> "") words ->
  strip (join_words words) = join_words words.
Proof.
  intros H. destruct words as [|w0 rest0]; [reflexivity|].
  destruct (join_words_shape (w0 :: rest0) H ltac:(discriminate)) as (c & r & E & Hc & _).
  unfold strip. rewrite E, lstrip_nonspace by exact Hc. rewrite <- E. clear E Hc c r.
  revert w0 H. induction rest0 as [|w1 rest IH]; intros w0 H.
  - inversion H as [|? ? [Hw _] _]; subst. now apply rstrip_no_space.
  - inversion H as [|? ? [Hw Nw] Hr]; subst.
    rewrite join_words_cons by discriminate.
    destruct (join_words_shape (w1 :: rest) Hr ltac:(discriminate)) as (c & r & E & _ & Hn).
    rewrite rstrip_app by (cbn [has_nonspace]; rewrite Hn; apply orb_true_r).
    cbn [rstrip]. rewrite IH by exact Hr. now rewrite E.
Qed.

Lemma re_split_join_words words :
  Forall (fun w => no_space w = true /\ w <> "") words -> words <> [] ->
  re_split_ws (join_words words) = words.
Proof.
  unfold re_split_ws. intros H Hne.
  destruct words as [|w0 rest0]; [congruence|]. clear Hne.
  revert w0 H. induction rest0 as [|w1 rest IH]; intros w0 H.
  - inversion H as [|? ? [Hw _] _]; subst. cbn [join_words].
    rewrite <- (append_nil_r w0) at 1. rewrite split_ws_token by exact Hw.
    cbn [split_ws]. now rewrite append_nil_r.
  - inversion H as [|? ? [Hw Nw] Hr]; subst.
    rewrite join_words_cons by discriminate.
    rewrite split_ws_token by exact Hw.
    destruct (join_words_shape (w1 :: rest) Hr ltac:(discriminate)) as (c & r & E & Hc & _).
    rewrite E. change (String " " (String c r)) with (" " ++ String c r)%string.
    rewrite split_ws_run by (reflexivity || discriminate || exact Hc).
    rewrite <- E, IH by exact Hr. now rewrite append_nil_r.
Qed.

Lemma parse_line_word_count stats words :
  Forall (fun w => no_space w = true /\ w <> "") words ->
  List.length words <> 2%nat ->
  re_match_norefs (join_words words) = None ->
  parse_line stats (join_words words) = Some stats.
Proof.
  intros H Hlen Hre. unfold parse_line. rewrite strip_join_words by exact H.
  destruct (is_empty (join_words words) || startswith (join_words words) "[");
    [reflexivity|].
  rewrite Hre. destruct (startswith (join_words words) "Success ratios:"); [reflexivity|].
  destruct words as [|w0 rest]; [reflexivity|].
  rewrite re_split_join_words by (exact H || discriminate).
  destruct rest as [|w1 [|w2 rest]]; try reflexivity.
  now contradiction Hlen.
Qed.

(** X23: only a line of exactly two words is a sample.  A line of one word,
    or of three or more, that is not the summary line adds nothing and
    raises nothing, whatever its words are: numbers on it are dropped
    silently, and it can stand anywhere in the file. *)
Theorem other_word_counts_are_ignored :
  forall (before after words : list string),
    Forall (fun l => no_newline l = true) (before ++ join_words words :: after) ->
    Forall (fun w => no_space w = true /\ w <> "") words ->
    List.length words <> 2%nat ->
    re_match_norefs (join_words words) = None ->
    parse_stats_file (unlines (before ++ join_words words :: after))
    = parse_stats_file (unlines (before ++ after)).
Proof.
  intros before after words Hn Hw Hlen Hre. unfold parse_stats_file.
  assert (Hn' : Forall (fun l => no_newline l = true) (before ++ after)).
  { apply Forall_app in Hn as [H1 H2]. inversion H2; subst.
    apply Forall_app. now split. }
  rewrite !file_lines_unlines by assumption.
  rewrite <- !app_assoc, !parse_lines_app.
  destruct (parse_lines [] before) as [stats|]; [|reflexivity].
  cbn [app parse_lines]. now rewrite parse_line_word_count.
Qed.

Lemma other_word_counts_are_ignored_witness :
  parse_stats_file (unlines ["success 5"; join_words ["fails"; "3"; "x.5"]; "fails 4"])
  = parse_stats_file (unlines ["success 5"; "fails 4"]).
Proof.
  apply (other_word_counts_are_ignored ["success 5"] ["fails 4"] ["fails"; "3"; "x.5"]).
  - repeat constructor.
  - repeat constructor; discriminate.
  - cbn. lia.
  - reflexivity.
Defined.

(** ** The stacked areas of the general chart *)

(** X24: the axis of the general chart is set from the largest single
    value, while [fails] and [success] are drawn stacked.  So the upper
    edge of the stack stays within twice the upper limit, and it does leave
    the axis: with equal positive [fails] and [success] the edge is above
    the limit. *)
Theorem stacked_areas_versus_axis :
  (forall (stats_map : dict stats_t) (min_len : nat),
      exists panels hi,
        plot_general stats_map min_len = (panels, (0%Q, hi))
        /\ Forall (fun p => Forall (fun v => inject_Z v <= 2 * hi)%Q (stack_top p))
                  panels)
  /\ (forall (name : string) (v : Z),
         (0 < v)%Z ->
         exists p hi,
           plot_general [(name, [("fails", [v]); ("success", [v])])] 1
           = ([p], (0%Q, hi))
           /\ stack_top p = [(v + v)%Z]
           /\ (hi < inject_Z (v + v))%Q).
Proof.
  split.
  - intros sm n. unfold plot_general. eexists _, _. split; [reflexivity|].
    destruct (general_ymax_upper sm n) as [H0 Hup].
    set (ymax := general_ymax sm n) in *.
    eapply Forall_impl; [|exact Hup]. intros p Hp. cbv beta in Hp.
    apply Forall_app in Hp as [Hf Hp]. apply Forall_app in Hp as [Hs _].
    rewrite Forall_forall in Hf, Hs. apply Forall_forall. intros top Hin.
    unfold stack_top in Hin. apply in_map_iff in Hin as ([f s] & <- & Hin).
    cbn [fst snd]. pose proof (Hf f (in_combine_l _ _ _ _ Hin)) as Hf'.
    pose proof (Hs s (in_combine_r _ _ _ _ Hin)) as Hs'.
    assert (Hq : (inject_Z (f + s) <= 2 * inject_Z ymax)%Q).
    { change 2%Q with (inject_Z 2). rewrite <- inject_Z_mult, <- Zle_Qle. lia. }
    assert (H0q : (0 <= inject_Z ymax)%Q).
    { change 0%Q with (inject_Z 0). now rewrite <- Zle_Qle. }
    destruct (Z.ltb_spec 0 ymax) as [Hpos|Hpos]; [lra|].
    assert (Hz : (inject_Z ymax <= 0)%Q).
    { change 0%Q with (inject_Z 0). now rewrite <- Zle_Qle. }
    lra.
  - intros name v Hv. unfold plot_general, general_ymax, general_panel.
    cbn [fold_left dict_get String.eqb Ascii.eqb Bool.eqb pn_fails pn_success
         pn_invalid map zeros repeat].
    unfold max_or_zero, py_max, py_max2. cbn [fold_left].
    rewrite !Z.ltb_irrefl.
    assert (E1 : (v <? 0)%Z = false) by (apply Z.ltb_ge; lia).
    assert (E2 : (0 <? v)%Z = true) by (apply Z.ltb_lt; lia).
    rewrite !E1, !E2.
    eexists _, _. split; [reflexivity|]. split; [reflexivity|].
    assert (Hq : (0 < inject_Z v)%Q).
    { change 0%Q with (inject_Z 0). now rewrite <- Zlt_Qlt. }
    rewrite inject_Z_plus. lra.
Qed.

Lemma stacked_areas_versus_axis_witness :
  exists p hi,
    plot_general [("A", [("fails", [5%Z]); ("success", [5%Z])])] 1 = ([p], (0%Q, hi))
    /\ stack_top p = [(5 + 5)%Z]
    /\ (hi < inject_Z (5 + 5))%Q.
Proof. apply (proj2 stacked_areas_versus_axis "A" 5%Z). lia. Defined.

(** ** Ties in a ranking *)

Section TiedRanking.
Context {V : Type} (ltb : V -> V -> bool) (zero : V).

End TiedRanking.


